(** * Capture-the-flag leaderboard: the domain model of
    [ctfsite/leaderboard/models.py], embedded over an explicit database.

    The Django models (Team, TeamMember, Level, Submission) become tables of
    rows, each query of the ORM becomes a function on those tables, and the
    methods of [Team] become computations in a small state-and-exception
    monad over the database. *)

From Stdlib Require Import ZArith Ascii String.
From stdpp Require Import base decidable option list strings.

(** ** The answer codec: [hashlib.sha1(...).hexdigest()] *)

Module SHA1.
Local Open Scope Z_scope.

(** 32-bit words are integers in [0, 2^32). *)
Definition mask32 : Z := 4294967295.

Definition add32 (x y : Z) : Z := Z.land (x + y) mask32.

Definition rotl (n x : Z) : Z :=
  Z.land (Z.lor (Z.shiftl x n) (Z.shiftr x (32 - n))) mask32.

Definition not32 (x : Z) : Z := Z.lxor x mask32.

(** The bytes of a string. A [string] holds the UTF-8 bytes of the Python
    text, so [str.encode()] is the list of its characters' codes. *)
Fixpoint encode (s : string) : list Z :=
  match s with
  | EmptyString => []
  | String c s' => Z.of_nat (nat_of_ascii c) :: encode s'
  end.

(** [n] as [k] bytes, most significant first. *)
Fixpoint be_bytes (k : nat) (n : Z) : list Z :=
  match k with
  | O => []
  | S k' => Z.land (Z.shiftr n (8 * Z.of_nat k')) 255 :: be_bytes k' n
  end.

(** Message padding: a 1 bit, zeros up to 56 mod 64 bytes, then the length
    in bits as a 64-bit big-endian integer. *)
Definition pad (msg : list Z) : list Z :=
  let len := Z.of_nat (length msg) in
  let zeros := Z.to_nat ((55 - len) mod 64) in
  msg ++ 128 :: replicate zeros 0 ++ be_bytes 8 (8 * len).

Fixpoint blocks (fuel : nat) (l : list Z) : list (list Z) :=
  match fuel with
  | O => []
  | S fuel' =>
      match l with
      | [] => []
      | _ => take 64 l :: blocks fuel' (drop 64 l)
      end
  end.

(** Big-endian words of a block. *)
Fixpoint words (k : nat) (l : list Z) : list Z :=
  match k with
  | O => []
  | S k' =>
      match l with
      | b0 :: b1 :: b2 :: b3 :: l' =>
          Z.lor (Z.shiftl b0 24)
            (Z.lor (Z.shiftl b1 16) (Z.lor (Z.shiftl b2 8) b3))
          :: words k' l'
      | _ => []
      end
  end.

(** The message schedule, kept most recent word first while it grows. *)
Fixpoint extend (k : nat) (rev_w : list Z) : list Z :=
  match k with
  | O => rev_w
  | S k' =>
      let w := rotl 1 (Z.lxor (Z.lxor (nth 2 rev_w 0) (nth 7 rev_w 0))
                              (Z.lxor (nth 13 rev_w 0) (nth 15 rev_w 0))) in
      extend k' (w :: rev_w)
  end.

Definition schedule (block : list Z) : list Z :=
  rev (extend 64 (rev (words 16 block))).

Record hstate := HState { ha : Z; hb : Z; hc : Z; hd : Z; he : Z }.

Definition round_f (i : nat) (b c d : Z) : Z :=
  if (i <? 20)%nat then Z.lor (Z.land b c) (Z.land (not32 b) d)
  else if (i <? 40)%nat then Z.lxor (Z.lxor b c) d
  else if (i <? 60)%nat then
    Z.lor (Z.lor (Z.land b c) (Z.land b d)) (Z.land c d)
  else Z.lxor (Z.lxor b c) d.

Definition round_k (i : nat) : Z :=
  if (i <? 20)%nat then 1518500249
  else if (i <? 40)%nat then 1859775393
  else if (i <? 60)%nat then 2400959708
  else 3395469782.

Definition round (i : nat) (w : Z) (s : hstate) : hstate :=
  let temp :=
    add32 (add32 (add32 (add32 (rotl 5 (ha s)) (round_f i (hb s) (hc s) (hd s)))
                        (he s)) (round_k i)) w in
  HState temp (ha s) (rotl 30 (hb s)) (hc s) (hd s).

Fixpoint rounds (i : nat) (ws : list Z) (s : hstate) : hstate :=
  match ws with
  | [] => s
  | w :: ws' => rounds (S i) ws' (round i w s)
  end.

Definition compress (h : hstate) (block : list Z) : hstate :=
  let s := rounds 0 (schedule block) h in
  HState (add32 (ha h) (ha s)) (add32 (hb h) (hb s)) (add32 (hc h) (hc s))
         (add32 (hd h) (hd s)) (add32 (he h) (he s)).

Definition init : hstate :=
  HState 1732584193 4023233417 2562383102 271733878 3285377520.

Definition digest (msg : list Z) : hstate :=
  let p := pad msg in
  fold_left compress (blocks (length p) p) init.

Definition hex_digit (n : Z) : ascii :=
  match String.get (Z.to_nat n) "0123456789abcdef" with
  | Some c => c
  | None => "0"%char
  end.

Fixpoint hex (k : nat) (n : Z) : string :=
  match k with
  | O => EmptyString
  | S k' => String (hex_digit (Z.land (Z.shiftr n (4 * Z.of_nat k')) 15))
                   (hex k' n)
  end.

Definition hexdigest (msg : list Z) : string :=
  let h := digest msg in
  (hex 8 (ha h) ++ hex 8 (hb h) ++ hex 8 (hc h) ++ hex 8 (hd h)
     ++ hex 8 (he h))%string.

End SHA1.

(** [encoded(answer_attempt)]: the hexadecimal SHA-1 digest of the attempt. *)
Definition encoded (answer_attempt : string) : string :=
  SHA1.hexdigest (SHA1.encode answer_attempt).

(** ** Rows and the database *)

Definition MAX_MEMBERS_PER_TEAM : nat := 4.

(** Users live in the authentication framework's table; the leaderboard
    refers to them by primary key only. *)
Definition User : Type := nat.

(** The [created_at] columns are written once, with the current time, and
    read by no method of the models: they are left out of the rows.

    A [Team] is both a row and the Python instance the methods are called
    on: an instance that has a primary key, as [Team.objects.create] and
    every query return it. Its row may be gone from the table by the time
    a method runs (deleted through another instance of the same team). *)
Record Team := mkTeam { team_pk : nat; team_name : string }.

Record TeamMember :=
  mkTeamMember { member_pk : nat; member_team : nat; member_user : User }.

Record Level :=
  mkLevel { level_pk : nat; level_name : string; level_answer : string }.

Record Submission :=
  mkSubmission { submission_pk : nat; submission_team : nat;
                 submission_level : nat }.

(** One table per model, in insertion order, and the last primary key each
    table has handed out (keys are never reused). *)
Record DB := mkDB {
  Team_table : list Team;
  TeamMember_table : list TeamMember;
  Level_table : list Level;
  Submission_table : list Submission;
  Team_seq : nat;
  TeamMember_seq : nat;
  Level_seq : nat;
  Submission_seq : nat
}.

Definition empty_db : DB := mkDB [] [] [] [] 0 0 0 0.

(** ** Exceptions and the monad of database computations *)

Inductive constraint :=
  | uk_user            (* TeamMember.Meta: UniqueConstraint(fields=['user']) *)
  | uk_team_level      (* Submission.Meta: UniqueConstraint(['team','level']) *)
  | level_name_unique  (* Level.name: unique=True *)
  | fk_team            (* ForeignKey(Team) *)
  | fk_level.          (* ForeignKey(Level) *)

Inductive exn :=
  | ValueError (msg : string)
  | IntegrityError (c : constraint)
  | DoesNotExist (model : string)
  | MultipleObjectsReturned (model : string)
  | IndexError.

Inductive outcome (A : Type) :=
  | Return (a : A)
  | Raise (e : exn).
Arguments Return {A} a.
Arguments Raise {A} e.

(** A computation reads and writes the database and either returns or
    raises; a raise keeps the writes made before it. *)
Definition M (A : Type) : Type := DB -> outcome A * DB.

Definition ret {A} (a : A) : M A := fun db => (Return a, db).

Definition bind {A B} (m : M A) (k : A -> M B) : M B :=
  fun db =>
    match m db with
    | (Return a, db') => k a db'
    | (Raise e, db') => (Raise e, db')
    end.

Definition raise {A} (e : exn) : M A := fun db => (Raise e, db).

Definition gets {A} (f : DB -> A) : M A := fun db => (Return (f db), db).

Definition modify (f : DB -> DB) : M unit := fun db => (Return tt, f db).

Notation "x <- m ;; k" := (bind m (fun x => k))
  (at level 100, m at next level, right associativity).
Notation "m ;; k" := (bind m (fun _ => k))
  (at level 100, right associativity).

(** [@transaction.atomic]: a raise inside the block rolls the database
    back to where the block started. *)
Definition atomic {A} (m : M A) : M A :=
  fun db =>
    match m db with
    | (Raise e, _) => (Raise e, db)
    | r => r
    end.

(** [try: m except DoesNotExist(model): handler] *)
Definition try_except_DoesNotExist {A} (model : string) (m handler : M A)
  : M A :=
  fun db =>
    match m db with
    | (Raise (DoesNotExist model'), db') =>
        if bool_decide (model' = model) then handler db'
        else (Raise (DoesNotExist model'), db')
    | r => r
    end.

(** ** The object managers: the queries and writes the models use *)

Definition members_of (pk : nat) (db : DB) : list TeamMember :=
  filter (fun m => member_team m = pk) (TeamMember_table db).

Definition memberships_of (user : User) (db : DB) : list TeamMember :=
  filter (fun m => member_user m = user) (TeamMember_table db).

Definition submissions_of (pk : nat) (db : DB) : list Submission :=
  filter (fun s => submission_team s = pk) (Submission_table db).

Definition teams_with_pk (pk : nat) (db : DB) : list Team :=
  filter (fun t => team_pk t = pk) (Team_table db).

(** [Model.objects.get(...)]: exactly one row, or an exception. *)
Definition objects_get {A} (model : string) (rows : list A) : M A :=
  match rows with
  | [] => raise (DoesNotExist model)
  | [r] => ret r
  | _ => raise (MultipleObjectsReturned model)
  end.

(** [TeamMember.objects.get(user=user)] *)
Definition TeamMember_objects_get (user : User) : M TeamMember :=
  rows <- gets (memberships_of user) ;;
  objects_get "TeamMember" rows.

(** [member.team]: the related Team, fetched by primary key. *)
Definition TeamMember_team (member : TeamMember) : M Team :=
  rows <- gets (teams_with_pk (member_team member)) ;;
  objects_get "Team" rows.

(** [Team.objects.create(name=name)] *)
Definition Team_objects_create (name : string) : M Team :=
  fun db =>
    let t := mkTeam (S (Team_seq db)) name in
    (Return t,
     mkDB (Team_table db ++ [t]) (TeamMember_table db) (Level_table db)
          (Submission_table db)
          (S (Team_seq db)) (TeamMember_seq db) (Level_seq db)
          (Submission_seq db)).

(** [TeamMember.objects.create(team=team, user=user)]: the insert is
    refused when the user already has a row (uk_user) or the team's row is
    gone (foreign key). *)
Definition TeamMember_objects_create (team : Team) (user : User)
  : M TeamMember :=
  fun db =>
    if bool_decide (memberships_of user db = []) then
      if bool_decide (teams_with_pk (team_pk team) db = []) then
        (Raise (IntegrityError fk_team), db)
      else
        let m := mkTeamMember (S (TeamMember_seq db)) (team_pk team) user in
        (Return m,
         mkDB (Team_table db) (TeamMember_table db ++ [m]) (Level_table db)
              (Submission_table db)
              (Team_seq db) (S (TeamMember_seq db)) (Level_seq db)
              (Submission_seq db))
    else (Raise (IntegrityError uk_user), db).

(** [Level.objects.create(name=name, answer=answer)]: only [name] is
    declared unique. *)
Definition Level_objects_create (name answer : string) : M Level :=
  fun db =>
    if bool_decide (filter (fun l => level_name l = name) (Level_table db)
                    = []) then
      let l := mkLevel (S (Level_seq db)) name answer in
      (Return l,
       mkDB (Team_table db) (TeamMember_table db) (Level_table db ++ [l])
            (Submission_table db)
            (Team_seq db) (TeamMember_seq db) (S (Level_seq db))
            (Submission_seq db))
    else (Raise (IntegrityError level_name_unique), db).

(** [Submission.objects.create(team=team, level=level)] *)
Definition Submission_objects_create (team : Team) (level : Level)
  : M Submission :=
  fun db =>
    if bool_decide
         (filter (fun s => submission_level s = level_pk level)
                 (submissions_of (team_pk team) db) = []) then
      if bool_decide (teams_with_pk (team_pk team) db = []) then
        (Raise (IntegrityError fk_team), db)
      else if bool_decide
                (filter (fun l => level_pk l = level_pk level) (Level_table db)
                 = []) then
        (Raise (IntegrityError fk_level), db)
      else
        let s := mkSubmission (S (Submission_seq db)) (team_pk team)
                              (level_pk level) in
        (Return s,
         mkDB (Team_table db) (TeamMember_table db) (Level_table db)
              (Submission_table db ++ [s])
              (Team_seq db) (TeamMember_seq db) (Level_seq db)
              (S (Submission_seq db)))
    else (Raise (IntegrityError uk_team_level), db).

(** [TeamMember.objects.filter(team=team, user=user).delete()] *)
Definition TeamMember_filter_delete (team : Team) (user : User) : M unit :=
  modify (fun db =>
    mkDB (Team_table db)
         (filter (fun m => ~ (member_team m = team_pk team
                              /\ member_user m = user))
                 (TeamMember_table db))
         (Level_table db) (Submission_table db)
         (Team_seq db) (TeamMember_seq db) (Level_seq db)
         (Submission_seq db)).

(** [team.delete()]: the rows that refer to the team go with it
    ([on_delete=models.CASCADE] on both foreign keys). *)
Definition Team_delete (team : Team) : M unit :=
  modify (fun db =>
    mkDB (filter (fun t => team_pk t <> team_pk team) (Team_table db))
         (filter (fun m => member_team m <> team_pk team)
                 (TeamMember_table db))
         (Level_table db)
         (filter (fun s => submission_team s <> team_pk team)
                 (Submission_table db))
         (Team_seq db) (TeamMember_seq db) (Level_seq db)
         (Submission_seq db)).

(** [Level.objects.all()[i]]: the model declares no ordering, the rows come
    as the table has them, in insertion order. *)
Definition Level_objects_all_at (i : nat) : M Level :=
  fun db =>
    match Level_table db !! i with
    | Some l => (Return l, db)
    | None => (Raise IndexError, db)
    end.

(** ** The models' methods *)

(** [find_team(user)] *)
Definition find_team (user : User) : M (option Team) :=
  try_except_DoesNotExist "TeamMember"
    (member <- TeamMember_objects_get user ;;
     team <- TeamMember_team member ;;
     ret (Some team))
    (ret None).

(** [Team.is_accepting_members] *)
Definition is_accepting_members (self : Team) : M bool :=
  n <- gets (fun db => length (members_of (team_pk self) db)) ;;
  ret (bool_decide (n < MAX_MEMBERS_PER_TEAM)).

(** [Team.is_empty] *)
Definition is_empty (self : Team) : M bool :=
  n <- gets (fun db => length (members_of (team_pk self) db)) ;;
  ret (bool_decide (n = 0)).

(** [Team.add_member] *)
Definition add_member (self : Team) (user : User) : M unit :=
  atomic
    (accepting <- is_accepting_members self ;;
     if negb accepting then
       raise (ValueError ("Team '" ++ team_name self
                            ++ "' is not accepting members"))
     else
       TeamMember_objects_create self user ;;
       ret tt).

(** [Team.remove_member] *)
Definition remove_member (self : Team) (user : User) : M unit :=
  atomic
    (TeamMember_filter_delete self user ;;
     empty <- is_empty self ;;
     if empty then Team_delete self else ret tt).

(** [Team.next_level_index] *)
Definition next_level_index (self : Team) : M nat :=
  gets (fun db => length (submissions_of (team_pk self) db)).

(** [Team.next_level] *)
Definition next_level (self : Team) : M (option Level) :=
  next_level_index <- next_level_index self ;;
  count <- gets (fun db => length (Level_table db)) ;;
  if bool_decide (count <= next_level_index) then ret None
  else
    l <- Level_objects_all_at next_level_index ;;
    ret (Some l).

(** [Team.can_submit]; [and] does not evaluate its right operand when the
    left one is false. *)
Definition can_submit (self : Team) : M bool :=
  empty <- is_empty self ;;
  if negb empty then
    l <- next_level self ;;
    ret (bool_decide (l <> None))
  else ret false.

(** [Level.is_correct] *)
Definition is_correct (self : Level) (answer_attempt : string) : bool :=
  bool_decide (level_answer self = encoded answer_attempt).

(** [Team.submit_attempt] *)
Definition submit_attempt (self : Team) (answer_attempt : string) : M bool :=
  ok <- can_submit self ;;
  if negb ok then
    raise (ValueError "Illegal state: team cannot submit solutions")
  else
    level <- next_level self ;;
    match level with
    | None => raise (ValueError "Illegal state: there is no next level")
    | Some level =>
        if negb (is_correct level answer_attempt) then ret false
        else
          Submission_objects_create self level ;;
          ret true
    end.

(** ** Sequences of calls *)

(** What a client of the models can do to the database. *)
Inductive call :=
  | CreateTeam (name : string)
  | CreateLevel (name answer : string)
  | AddMember (team : Team) (user : User)
  | RemoveMember (team : Team) (user : User)
  | SubmitAttempt (team : Team) (answer_attempt : string).

(** The database after a call; a call that raises is caught by its caller
    and the database stays as the call left it. *)
Definition exec (db : DB) (c : call) : DB :=
  match c with
  | CreateTeam name => snd (Team_objects_create name db)
  | CreateLevel name answer => snd (Level_objects_create name answer db)
  | AddMember team user => snd (add_member team user db)
  | RemoveMember team user => snd (remove_member team user db)
  | SubmitAttempt team attempt => snd (submit_attempt team attempt db)
  end.

Definition run (calls : list call) (db : DB) : DB := fold_left exec calls db.

(** The pure readings the statements below are written with. *)
Definition member_count (db : DB) (team : Team) : nat :=
  length (members_of (team_pk team) db).

Definition result {A} (m : M A) (db : DB) : outcome A := fst (m db).


Definition solved (db : DB) (team : Team) : nat :=
  length (submissions_of (team_pk team) db).

(** The two messages [submit_attempt] raises [ValueError] with. *)
Definition illegal_state_error (e : exn) : Prop :=
  e = ValueError "Illegal state: team cannot submit solutions"
  \/ e = ValueError "Illegal state: there is no next level".

(** The message of [add_member]'s capacity error. *)
Definition capacity_error (team : Team) : exn :=
  ValueError ("Team '" ++ team_name team ++ "' is not accepting members").

(** The members of [team] other than [user]. *)
Definition other_members (db : DB) (team : Team) (user : User)
  : list TeamMember :=
  filter (fun m => member_team m = team_pk team /\ member_user m <> user)
         (TeamMember_table db).

(** The database once [user]'s row in [self] is deleted. *)
Definition without_member (db : DB) (self : Team) (user : User) : DB :=
  mkDB (Team_table db)
       (filter (fun m => ~ (member_team m = team_pk self
                            /\ member_user m = user))
               (TeamMember_table db))
       (Level_table db) (Submission_table db)
       (Team_seq db) (TeamMember_seq db) (Level_seq db) (Submission_seq db).

(** The database once the row is deleted and the team with it. *)
Definition without_team (db : DB) (self : Team) (user : User) : DB :=
  mkDB (filter (fun t => team_pk t <> team_pk self) (Team_table db))
       (filter (fun m => ~ (member_team m = team_pk self
                            /\ member_user m = user))
               (TeamMember_table db))
       (Level_table db)
       (filter (fun s => submission_team s <> team_pk self)
               (Submission_table db))
       (Team_seq db) (TeamMember_seq db) (Level_seq db) (Submission_seq db).

(** The database once [team] has solved [level]. *)
Definition with_submission (db : DB) (team : Team) (level : Level) : DB :=
  mkDB (Team_table db) (TeamMember_table db) (Level_table db)
       (Submission_table db
          ++ [mkSubmission (S (Submission_seq db)) (team_pk team)
                           (level_pk level)])
       (Team_seq db) (TeamMember_seq db) (Level_seq db)
       (S (Submission_seq db)).

(** [c] is a [remove_member] call on the team [self]. *)
Definition leaves (self : Team) (c : call) : Prop :=
  match c with
  | RemoveMember team _ => team_pk team = team_pk self
  | _ => False
  end.

(** The invariant of the databases the calls can build: the capacity of
    teams, the storage constraints, and the shape of a team's progress (its
    submissions are of the first levels, in order). *)
Record wf (db : DB) : Prop := mk_wf {
  wf_capacity :
    forall pk, length (members_of pk db) <= MAX_MEMBERS_PER_TEAM;
  wf_uk_user : NoDup (member_user <$> TeamMember_table db);
  wf_team_pk : NoDup (team_pk <$> Team_table db);
  wf_team_seq : forall t, t ∈ Team_table db -> team_pk t <= Team_seq db;
  wf_member_team :
    forall m, m ∈ TeamMember_table db -> teams_with_pk (member_team m) db <> [];
  wf_level_pk : NoDup (level_pk <$> Level_table db);
  wf_level_seq : forall l, l ∈ Level_table db -> level_pk l <= Level_seq db;
  wf_progress :
    forall pk,
      submission_level <$> submissions_of pk db
      = level_pk <$> take (length (submissions_of pk db)) (Level_table db)
}.

(** ** Concrete databases, after the scenarios of the test suite *)

Definition team_T : Team := mkTeam 1 "T".

(** [test_submit_accepts_correct_answer]: one level, one team, one member. *)
Definition one_level_one_member : DB :=
  run [CreateLevel "L1" (encoded "flag1"); CreateTeam "T"; AddMember team_T 7]
      empty_db.

(** [test_cannot_create_more_members_than_max]: a team with four members. *)
Definition full_team : DB :=
  run [CreateTeam "T"; AddMember team_T 1; AddMember team_T 2;
       AddMember team_T 3; AddMember team_T 4] empty_db.

(** [test_cannot_submit_when_team_is_empty]: a team nobody has joined. *)
Definition fresh_team : DB := run [CreateTeam "T"] empty_db.

(** A team nobody has joined, and a level to solve. *)
Definition fresh_team_one_level : DB :=
  run [CreateLevel "L1" (encoded "flag1"); CreateTeam "T"] empty_db.

(** [test_submit_accepts_correct_answer_sequence]: six levels, one team
    with one member, and the six correct submissions in order. *)
Definition six_answers : list string := ["a0"; "a1"; "a2"; "a3"; "a4"; "a5"].

Definition six_levels : DB :=
  run (((fun a => CreateLevel ("level-" ++ a) (encoded a)) <$> six_answers)
         ++ [CreateTeam "T"; AddMember team_T 7])
      empty_db.

(** Two teams, and a user in the first. *)
Definition two_teams : DB :=
  run [CreateTeam "T"; AddMember team_T 7; CreateTeam "U"] empty_db.

(** [test_submit_accepts_correct_answer], after the correct submission. *)
Definition one_level_solved : DB :=
  run [SubmitAttempt team_T "flag1"] one_level_one_member.

(** ** What the further statements are written with *)

(** The lowercase hexadecimal digits, and the strings made of them. *)
Definition is_hex_digit (c : ascii) : bool :=
  existsb (Ascii.eqb c) (list_ascii_of_string "0123456789abcdef").

Fixpoint is_hex (s : string) : bool :=
  match s with
  | EmptyString => true
  | String c s' => is_hex_digit c && is_hex s'
  end.

(** [Level.answer]: [CharField(max_length=200)]. *)
Definition answer_max_length : nat := 200.

(** The team a call is made on. *)
Definition call_team (c : call) : option Team :=
  match c with
  | AddMember team _ | RemoveMember team _ | SubmitAttempt team _ => Some team
  | CreateTeam _ | CreateLevel _ _ => None
  end.

(** Every foreign key points at a row: members at their team, submissions
    at their team and their level. *)
Definition refs_ok (db : DB) : Prop :=
  Forall (fun m => teams_with_pk (member_team m) db <> [])
         (TeamMember_table db)
  /\ Forall (fun s =>
               teams_with_pk (submission_team s) db <> []
               /\ filter (fun l => level_pk l = submission_level s)
                         (Level_table db) <> [])
            (Submission_table db).

(** ** The answer codec on known digests *)

Example encoded_abc :
  encoded "abc" = "a9993e364706816aba3e25717850c26c9cd0d89d"%string.
Proof. vm_compute. reflexivity. Qed.

Example encoded_empty :
  encoded "" = "da39a3ee5e6b4b0d3255bfef95601890afd80709"%string.
Proof. vm_compute. reflexivity. Qed.

Example encoded_two_blocks :
  encoded "abcdbcdecdefdefgefghfghighijhijkijkljklmklmnlmnomnopnopq"
  = "84983e441c3bd26ebaae4aa1f95129e5e54670f1"%string.
Proof. vm_compute. reflexivity. Qed.

(** ** The readers, as functions of the database *)

Ltac unfold_M :=
  unfold result, bind, ret, raise, gets, modify in *.

Section Readers.
Variables (db : DB) (self : Team).

Lemma is_accepting_members_eq :
  is_accepting_members self db
  = (Return (bool_decide (member_count db self < MAX_MEMBERS_PER_TEAM)), db).
Proof. reflexivity. Qed.

Lemma is_empty_eq :
  is_empty self db = (Return (bool_decide (member_count db self = 0)), db).
Proof. reflexivity. Qed.

Lemma next_level_index_eq :
  next_level_index self db = (Return (solved db self), db).
Proof. reflexivity. Qed.

(** The slice in [next_level] is guarded by the count: it never raises
    [IndexError], and the method returns the level at the index. *)
Lemma next_level_eq :
  next_level self db = (Return (Level_table db !! solved db self), db).
Proof.
  unfold next_level, Level_objects_all_at. unfold_M.
  rewrite next_level_index_eq.
  case_bool_decide as Hle.
  - by rewrite (lookup_ge_None_2 _ _ Hle).
  - destruct (lookup_lt_is_Some_2 (Level_table db) (solved db self))
      as [l Hl]; [lia|].
    by rewrite Hl.
Qed.

Lemma can_submit_eq :
  can_submit self db
  = (Return (negb (bool_decide (member_count db self = 0))
             && bool_decide (Level_table db !! solved db self <> None)), db).
Proof.
  unfold can_submit. unfold_M. rewrite is_empty_eq.
  destruct (bool_decide (member_count db self = 0)); simpl; [done|].
  by rewrite next_level_eq.
Qed.

(** [submit_attempt], case by case. *)
Lemma submit_attempt_eq (attempt : string) :
  submit_attempt self attempt db =
  if bool_decide (member_count db self = 0) then
    (Raise (ValueError "Illegal state: team cannot submit solutions"), db)
  else
    match Level_table db !! solved db self with
    | None =>
        (Raise (ValueError "Illegal state: team cannot submit solutions"), db)
    | Some level =>
        if is_correct level attempt then
          match Submission_objects_create self level db with
          | (Return _, db') => (Return true, db')
          | (Raise e, db') => (Raise e, db')
          end
        else (Return false, db)
    end.
Proof.
  unfold submit_attempt. unfold_M. rewrite can_submit_eq.
  destruct (bool_decide (member_count db self = 0)); cbn [negb andb]; [done|].
  destruct (Level_table db !! solved db self) as [level|] eqn:Hlevel.
  - rewrite bool_decide_true by done. cbn [negb].
    rewrite next_level_eq, Hlevel.
    by destruct (is_correct level attempt).
  - by rewrite bool_decide_false by (intros H; by apply H).
Qed.
End Readers.

(** ** Writers, as functions of the database *)

Lemma filter_all {A} (P : A -> Prop) `{!forall x, Decision (P x)} (l : list A) :
  (forall x, x ∈ l -> P x) -> filter P l = l.
Proof.
  induction l as [|a l IH]; intros HP; [done|].
  rewrite filter_cons_True by (apply HP; left).
  f_equal. apply IH. intros x Hx. apply HP. by right.
Qed.

Lemma filter_none {A} (P : A -> Prop) `{!forall x, Decision (P x)} (l : list A) :
  (forall x, x ∈ l -> ~ P x) -> filter P l = [].
Proof.
  induction l as [|a l IH]; intros HP; [done|].
  rewrite filter_cons_False by (apply HP; left).
  apply IH. intros x Hx. apply HP. by right.
Qed.

Lemma filter_nil_all {A} (P : A -> Prop) `{!forall x, Decision (P x)}
    (l : list A) x :
  filter P l = [] -> x ∈ l -> ~ P x.
Proof.
  intros Hnil Hx HP. by apply (filter_nil_not_elem_of P l x Hnil HP).
Qed.

Section Writers.
Variables (db : DB) (self : Team) (user : User).

Lemma members_of_without_member :
  members_of (team_pk self) (without_member db self user)
  = other_members db self user.
Proof.
  unfold members_of, other_members. simpl.
  rewrite list_filter_filter. apply list_filter_iff.
  intros m. split; [intros [? ?]|intros [? ?]]; split; auto.
  intros [_ ?]; done.
Qed.

Lemma remove_member_eq :
  remove_member self user db =
  (Return tt,
   if bool_decide (other_members db self user = [])
   then without_team db self user
   else without_member db self user).
Proof.
  unfold remove_member, atomic, TeamMember_filter_delete, Team_delete.
  unfold_M. fold (without_member db self user). rewrite is_empty_eq.
  unfold member_count. rewrite members_of_without_member.
  destruct (other_members db self user) as [|m ms] eqn:Hothers; simpl.
  - unfold without_team. f_equal. f_equal.
    apply filter_all. intros m Hm Hpk.
    assert (m ∈ other_members db self user) as Hin.
    { rewrite <- members_of_without_member.
      apply list_elem_of_filter. by split. }
    rewrite Hothers in Hin. by apply not_elem_of_nil in Hin.
  - done.
Qed.

Lemma add_member_eq :
  add_member self user db =
  if bool_decide (member_count db self < MAX_MEMBERS_PER_TEAM) then
    match TeamMember_objects_create self user db with
    | (Return _, db') => (Return tt, db')
    | (Raise e, _) => (Raise e, db)
    end
  else (Raise (capacity_error self), db).
Proof.
  unfold add_member, atomic. unfold_M. rewrite is_accepting_members_eq.
  destruct (bool_decide (member_count db self < MAX_MEMBERS_PER_TEAM));
    cbn [negb]; [|done].
  by destruct (TeamMember_objects_create self user db) as [[m|e] db'].
Qed.
End Writers.

(** ** Submitting *)

(** C4: [submit_attempt] raises an illegal-state error, and writes nothing,
    exactly when [can_submit] is false, where [can_submit] is
    [not is_empty and next_level is not None]; a team without members cannot
    submit whatever levels exist, and neither can a team that has solved
    every existing level. *)
Theorem submit_attempt_illegal_state_iff
    (db : DB) (self : Team) (attempt : string) :
  (exists empty level,
      result (is_empty self) db = Return empty
      /\ result (next_level self) db = Return level
      /\ result (can_submit self) db
         = Return (negb empty && bool_decide (level <> None)))
  /\ ((exists e, result (submit_attempt self attempt) db = Raise e
                 /\ illegal_state_error e)
      <-> result (can_submit self) db = Return false)
  /\ (result (can_submit self) db = Return false ->
      snd (submit_attempt self attempt db) = db)
  /\ (member_count db self = 0 ->
      result (can_submit self) db = Return false)
  /\ (length (Level_table db) <= solved db self ->
      result (can_submit self) db = Return false).
Proof.
  unfold result.
  rewrite is_empty_eq, next_level_eq, can_submit_eq, submit_attempt_eq.
  cbn [fst snd].
  split; [eauto|].
  destruct (bool_decide (member_count db self = 0)) eqn:Hempty; cbn [negb andb].
  { repeat split; try done.
    intros _. eexists. split; [done|]. by left. }
  apply bool_decide_eq_false in Hempty.
  destruct (Level_table db !! solved db self) as [level|] eqn:Hlevel.
  - rewrite bool_decide_true by done.
    split; [|split; [done|split; [done|]]].
    + split; [|done]. intros (e & Hraise & Hill).
      destruct (is_correct level attempt); [|done].
      unfold Submission_objects_create in Hraise.
      repeat case_bool_decide; cbn [fst] in Hraise;
        destruct Hill; simplify_eq.
    + intros Hle. apply lookup_ge_None_2 in Hle. congruence.
  - rewrite bool_decide_false by (intros H; by apply H).
    repeat split; try done.
    intros _. eexists. split; [done|]. by left.
Qed.

Lemma submit_attempt_illegal_state_iff_witness :
  result (can_submit team_T) fresh_team_one_level = Return false
  /\ snd (submit_attempt team_T "flag1" fresh_team_one_level)
     = fresh_team_one_level
  /\ exists e,
       result (submit_attempt team_T "flag1") fresh_team_one_level = Raise e
       /\ illegal_state_error e.
Proof.
  destruct (submit_attempt_illegal_state_iff fresh_team_one_level team_T
              "flag1") as (_ & Hiff & Hsame & Hempty & _).
  assert (result (can_submit team_T) fresh_team_one_level = Return false)
    as Hcannot by (apply Hempty; vm_compute; reflexivity).
  split; [exact Hcannot|]. split; [exact (Hsame Hcannot)|].
  exact (proj2 Hiff Hcannot).
Defined.


(** C6: for a team that may submit, an attempt whose digest differs from
    the next level's stored one returns false and leaves the database as it
    was; any number of such attempts in a row leave [next_level_index] and
    the Submission table unchanged. *)
Theorem incorrect_attempt_no_effect
    (db : DB) (self : Team) (level : Level) (attempt : string)
    (attempts : list string) :
  result (can_submit self) db = Return true ->
  result (next_level self) db = Return (Some level) ->
  level_answer level <> encoded attempt ->
  Forall (fun a => level_answer level <> encoded a) attempts ->
  submit_attempt self attempt db = (Return false, db)
  /\ run (SubmitAttempt self <$> attempts) db = db
  /\ result (next_level_index self) (run (SubmitAttempt self <$> attempts) db)
     = result (next_level_index self) db
  /\ Submission_table (run (SubmitAttempt self <$> attempts) db)
     = Submission_table db.
Proof.
  unfold result. rewrite can_submit_eq, next_level_eq. cbn [fst].
  intros Hcan Hlevel Hwrong Hall.
  assert (forall a, level_answer level <> encoded a ->
                    submit_attempt self a db = (Return false, db)) as Hone.
  { intros a Ha. rewrite submit_attempt_eq.
    destruct (bool_decide (member_count db self = 0)); [done|].
    simplify_eq. rewrite Hlevel. unfold is_correct.
    by rewrite bool_decide_false. }
  assert (run (SubmitAttempt self <$> attempts) db = db) as Hrun.
  { induction Hall as [|a attempts Ha _ IH]; [done|].
    unfold run in *. cbn [fmap list_fmap fold_left exec].
    by rewrite (Hone a Ha). }
  rewrite Hrun. auto.
Qed.

Lemma incorrect_attempt_no_effect_witness :
  submit_attempt team_T "wrong" one_level_one_member
  = (Return false, one_level_one_member)
  /\ run (SubmitAttempt team_T <$> ["wrong"; "flag"; "flag2"])
         one_level_one_member = one_level_one_member
  /\ result (next_level_index team_T)
       (run (SubmitAttempt team_T <$> ["wrong"; "flag"; "flag2"])
            one_level_one_member)
     = result (next_level_index team_T) one_level_one_member
  /\ Submission_table
       (run (SubmitAttempt team_T <$> ["wrong"; "flag"; "flag2"])
            one_level_one_member)
     = Submission_table one_level_one_member.
Proof.
  apply (incorrect_attempt_no_effect one_level_one_member team_T
           (mkLevel 1 "L1" (encoded "flag1")) "wrong"
           ["wrong"; "flag"; "flag2"]).
  - vm_compute. reflexivity.
  - vm_compute. reflexivity.
  - vm_compute. discriminate.
  - repeat constructor; vm_compute; discriminate.
Defined.

(** ** Leaving a team *)

(** C8: [remove_member] never raises; it deletes the row of (team, user)
    when there is one and leaves the membership table as it was when there
    is none; when no other member remains the team's row goes, and its
    submissions with it; when one does, the teams and the submissions are
    unchanged, and so is every other membership row. *)
Theorem remove_member_effect (db : DB) (self : Team) (user : User) :
  exists db',
    remove_member self user db = (Return tt, db')
    /\ TeamMember_table db'
       = filter (fun m => ~ (member_team m = team_pk self
                             /\ member_user m = user))
                (TeamMember_table db)
    /\ (filter (fun m => member_team m = team_pk self /\ member_user m = user)
               (TeamMember_table db) = [] ->
        TeamMember_table db' = TeamMember_table db)
    /\ Level_table db' = Level_table db
    /\ (other_members db self user = [] ->
        Team_table db'
        = filter (fun t => team_pk t <> team_pk self) (Team_table db)
        /\ Submission_table db'
           = filter (fun s => submission_team s <> team_pk self)
                    (Submission_table db))
    /\ (other_members db self user <> [] ->
        Team_table db' = Team_table db
        /\ Submission_table db' = Submission_table db).
Proof.
  eexists. split; [apply remove_member_eq|].
  case_bool_decide as Hothers; cbn [TeamMember_table Level_table Team_table
    Submission_table without_team without_member];
    (split; [done|]); (split; [|split; [done|]]);
    try (intros Habsent; apply filter_all; intros m Hm Hrow;
         by apply (filter_nil_all _ _ m Habsent Hm)).
  - split; [done|]. by intros [].
  - split; [by intros ?|done].
Qed.

Lemma remove_member_effect_witness :
  (exists db',
      remove_member team_T 7 one_level_solved = (Return tt, db')
      /\ TeamMember_table db' = []
      /\ Team_table db' = []
      /\ Submission_table db' = [])
  /\ (exists db',
        remove_member team_T 1 full_team = (Return tt, db')
        /\ member_user <$> TeamMember_table db' = [2; 3; 4]
        /\ Team_table db' = Team_table full_team
        /\ Submission_table db' = Submission_table full_team).
Proof.
  split.
  - destruct (remove_member_effect one_level_solved team_T 7)
      as (db' & Hcall & Hmembers & _ & _ & Hlast & _).
    destruct Hlast as [Hteams Hsubs]; [vm_compute; reflexivity|].
    exists db'. rewrite Hmembers, Hteams, Hsubs.
    split; [exact Hcall|]. vm_compute. auto.
  - destruct (remove_member_effect full_team team_T 1)
      as (db' & Hcall & Hmembers & _ & _ & _ & Hstay).
    destruct Hstay as [Hteams Hsubs]; [vm_compute; discriminate|].
    exists db'. rewrite Hmembers, Hteams, Hsubs.
    split; [exact Hcall|]. vm_compute. auto.
Defined.


(** C9: on a team that has no member, [remove_member] deletes no
    membership row and still deletes the team (the emptiness test comes
    after the deletion, and does not ask whether a row was deleted). *)
Theorem remove_member_of_empty_team_deletes_team
    (db : DB) (self : Team) (user : User) :
  member_count db self = 0 ->
  exists db',
    remove_member self user db = (Return tt, db')
    /\ TeamMember_table db' = TeamMember_table db
    /\ Team_table db'
       = filter (fun t => team_pk t <> team_pk self) (Team_table db)
    /\ (self ∉ Team_table db')
    /\ teams_with_pk (team_pk self) db' = [].
Proof.
  intros Hcount. apply nil_length_inv in Hcount.
  assert (forall m, m ∈ TeamMember_table db -> member_team m <> team_pk self)
    as Hnone.
  { intros m Hm. by apply (filter_nil_all _ _ m Hcount Hm). }
  eexists. split; [apply remove_member_eq|].
  rewrite bool_decide_true.
  2:{ apply filter_none. intros m Hm [Hpk _]. by apply (Hnone m). }
  cbn [TeamMember_table Team_table without_team].
  split; [|split; [done|split]].
  - apply filter_all. intros m Hm [Hpk _]. by apply (Hnone m).
  - intros Hin. apply list_elem_of_filter in Hin. by destruct Hin.
  - unfold teams_with_pk. cbn [Team_table]. apply filter_none.
    intros t Ht Hpk. apply list_elem_of_filter in Ht. by destruct Ht.
Qed.

Lemma remove_member_of_empty_team_deletes_team_witness :
  team_T ∈ Team_table fresh_team
  /\ exists db',
    remove_member team_T 7 fresh_team = (Return tt, db')
    /\ TeamMember_table db' = TeamMember_table fresh_team
    /\ Team_table db'
       = filter (fun t => team_pk t <> team_pk team_T) (Team_table fresh_team)
    /\ (team_T ∉ Team_table db')
    /\ teams_with_pk (team_pk team_T) db' = [].
Proof.
  split; [vm_compute; left|].
  apply (remove_member_of_empty_team_deletes_team fresh_team team_T 7).
  vm_compute. reflexivity.
Defined.

(** ** Joining a team *)

(** C10: the capacity check comes before the insert: on a team that has
    [MAX_MEMBERS_PER_TEAM] members, [add_member] of a user who already
    belongs to a team raises the capacity error that names the team, not
    the uniqueness violation, and writes nothing. *)
Theorem add_member_capacity_before_uniqueness
    (db : DB) (self : Team) (user : User) :
  member_count db self = MAX_MEMBERS_PER_TEAM ->
  memberships_of user db <> [] ->
  add_member self user db
  = (Raise (ValueError ("Team '" ++ team_name self
                          ++ "' is not accepting members")), db)
  /\ result (add_member self user) db <> Raise (IntegrityError uk_user).
Proof.
  intros Hfull _. unfold result. rewrite add_member_eq.
  rewrite bool_decide_false by lia. done.
Qed.

Lemma add_member_capacity_before_uniqueness_witness :
  add_member team_T 1 full_team
  = (Raise (ValueError "Team 'T' is not accepting members"), full_team)
  /\ result (add_member team_T 1) full_team <> Raise (IntegrityError uk_user).
Proof.
  apply (add_member_capacity_before_uniqueness full_team team_T 1).
  - vm_compute. reflexivity.
  - vm_compute. discriminate.
Defined.

(** ** Creating levels *)

(** C5, on the code: the Level model declares [name] unique and [answer]
    not; a second level with another name and the same plaintext answer is
    inserted, and the table then holds the same digest twice. *)
Theorem level_with_same_answer_is_accepted :
  exists l1 l2 db1 db2,
    Level_objects_create "foo" (encoded "bar") empty_db = (Return l1, db1)
    /\ Level_objects_create "baz" (encoded "bar") db1 = (Return l2, db2)
    /\ Level_table db2 = [l1; l2]
    /\ level_name l1 <> level_name l2
    /\ level_answer l1 = level_answer l2.
Proof.
  do 4 eexists. split; [vm_compute; reflexivity|].
  split; [vm_compute; reflexivity|].
  split; [reflexivity|]. split; [discriminate|reflexivity].
Qed.

(** ** The invariant is kept by every call *)

Lemma wf_empty : wf empty_db.
Proof.
  split; cbn; try (intros ? Hin; by apply not_elem_of_nil in Hin);
    try apply NoDup_nil_2; try done.
  intros _. unfold MAX_MEMBERS_PER_TEAM. lia.
Qed.

Lemma NoDup_snoc_fresh {A} (f : A -> nat) (l : list A) (x : A) (n : nat) :
  NoDup (f <$> l) -> (forall y, y ∈ l -> f y <= n) -> f x = S n ->
  NoDup (f <$> (l ++ [x])).
Proof.
  intros Hnd Hle Hx. rewrite fmap_app. apply NoDup_app.
  split; [done|]. split; [|apply NoDup_singleton].
  intros k Hk Hk'. apply list_elem_of_fmap in Hk as (y & -> & Hy).
  apply list_elem_of_singleton in Hk'. specialize (Hle y Hy). simpl in *. lia.
Qed.

Lemma NoDup_fmap_filter {A B} (f : A -> B) (P : A -> Prop)
    `{!forall x, Decision (P x)} (l : list A) :
  NoDup (f <$> l) -> NoDup (f <$> filter P l).
Proof.
  intros Hnd. eapply sublist_NoDup; [exact Hnd|].
  apply fmap_sublist, sublist_filter.
Qed.

Lemma length_filter_filter {A} (P Q : A -> Prop)
    `{!forall x, Decision (P x), !forall x, Decision (Q x)} (l : list A) :
  length (filter P (filter Q l)) <= length (filter P l).
Proof.
  induction l as [|a l IH]; [done|].
  rewrite (filter_cons Q), (filter_cons P a l).
  destruct (decide (Q a)); [rewrite filter_cons|];
    destruct (decide (P a)); simpl; lia.
Qed.

Lemma solved_le_levels db pk :
  wf db -> length (submissions_of pk db) <= length (Level_table db).
Proof.
  intros Hwf. pose proof (f_equal length (wf_progress db Hwf pk)) as Hlen.
  rewrite !length_fmap, length_take in Hlen. lia.
Qed.

Lemma wf_Team_objects_create db name :
  wf db -> wf (snd (Team_objects_create name db)).
Proof.
  intros Hwf. destruct Hwf. split; cbn; try done.
  - by apply (NoDup_snoc_fresh team_pk _ _ (Team_seq db)).
  - intros t [Ht| ->%list_elem_of_singleton]%elem_of_app; cbn; [|lia].
    specialize (wf_team_seq0 t Ht). lia.
  - intros m Hm. unfold teams_with_pk. cbn. rewrite filter_app.
    intros [Hnil _]%app_eq_nil. by apply (wf_member_team0 m Hm).
Qed.

Lemma wf_Level_objects_create db name answer :
  wf db -> wf (snd (Level_objects_create name answer db)).
Proof.
  intros Hwf. unfold Level_objects_create.
  case_bool_decide; [|done].
  pose proof (fun pk => solved_le_levels db pk Hwf) as Hle.
  destruct Hwf. split; cbn; try done.
  - by apply (NoDup_snoc_fresh level_pk _ _ (Level_seq db)).
  - intros l [Hl| ->%list_elem_of_singleton]%elem_of_app; cbn; [|lia].
    specialize (wf_level_seq0 l Hl). lia.
  - intros pk. unfold submissions_of in *. cbn.
    rewrite take_app_le by apply Hle. apply wf_progress0.
Qed.

Lemma wf_add_member db team user :
  wf db -> wf (snd (add_member team user db)).
Proof.
  intros Hwf. rewrite add_member_eq.
  case_bool_decide as Hroom; [|done].
  unfold TeamMember_objects_create.
  case_bool_decide as Hfree; [|done].
  case_bool_decide as Hteam; [done|].
  destruct Hwf. split; cbn; try done.
  - intros pk. unfold members_of in *. cbn. rewrite filter_app, length_app.
    specialize (wf_capacity0 pk). unfold member_count in Hroom.
    rewrite filter_cons, filter_nil. cbn.
    unfold MAX_MEMBERS_PER_TEAM, members_of in *.
    case_decide; subst; cbn; lia.
  - rewrite fmap_app. apply NoDup_app. split; [done|].
    split; [|apply NoDup_singleton].
    intros u Hu ->%list_elem_of_singleton.
    apply list_elem_of_fmap in Hu as (m & Hm & Hin).
    by apply (filter_nil_all _ _ m Hfree Hin).
  - intros m [Hm| ->%list_elem_of_singleton]%elem_of_app; [|done].
    by apply wf_member_team0.
Qed.

Lemma wf_remove_member db team user :
  wf db -> wf (snd (remove_member team user db)).
Proof.
  intros Hwf. rewrite remove_member_eq. cbn [snd].
  case_bool_decide as Hothers; destruct Hwf; split;
    cbn [without_team without_member Team_table TeamMember_table Level_table
         Submission_table Team_seq Level_seq]; try done.
  - intros pk. etrans; [|apply (wf_capacity0 pk)].
    apply length_filter_filter.
  - by apply NoDup_fmap_filter.
  - by apply NoDup_fmap_filter.
  - intros t [_ Ht]%list_elem_of_filter. by apply wf_team_seq0.
  - intros m [Hrow Hm]%list_elem_of_filter.
    assert (member_team m <> team_pk team) as Hne.
    { intros Hpk. apply (filter_nil_all _ _ m Hothers Hm).
      split; [done|]. intros Hu. by apply Hrow. }
    specialize (wf_member_team0 m Hm). unfold teams_with_pk in *. cbn.
    rewrite list_filter_filter. intros Hnil. apply wf_member_team0.
    apply filter_none. intros t Ht Hpk.
    apply (filter_nil_all _ _ t Hnil Ht). split; [done|]. congruence.
  - intros pk. unfold submissions_of in *. cbn. rewrite list_filter_filter.
    destruct (decide (pk = team_pk team)) as [->|Hne].
    + rewrite filter_none by (intros s _ [? ?]; done). done.
    + rewrite (list_filter_iff _ (fun s => submission_team s = pk)).
      * apply wf_progress0.
      * intros s. split; [by intros [? _]|]. intros <-. done.
  - intros pk. etrans; [|apply (wf_capacity0 pk)].
    apply length_filter_filter.
  - by apply NoDup_fmap_filter.
  - intros m [_ Hm]%list_elem_of_filter. by apply wf_member_team0.
Qed.

Lemma filter_not_nil {A} (P : A -> Prop) `{!forall x, Decision (P x)}
    (l : list A) (x : A) :
  x ∈ l -> P x -> filter P l <> [].
Proof.
  intros Hx HP Hnil. by apply (filter_nil_all P l x Hnil Hx).
Qed.

(** In a well-formed database the insert of the next level's submission
    passes every constraint. *)
Lemma Submission_objects_create_next db self level :
  wf db ->
  member_count db self <> 0 ->
  Level_table db !! solved db self = Some level ->
  Submission_objects_create self level db
  = (Return (mkSubmission (S (Submission_seq db)) (team_pk self)
                          (level_pk level)),
     with_submission db self level).
Proof.
  intros Hwf Hmembers Hlevel. unfold Submission_objects_create.
  rewrite bool_decide_true; cycle 1.
  { apply filter_none. intros s Hs Hpk.
    assert (level_pk level ∈ submission_level <$> submissions_of (team_pk self) db)
      as Hin by (apply list_elem_of_fmap; eauto).
    rewrite (wf_progress db Hwf) in Hin.
    apply list_elem_of_lookup in Hin as [i Hi].
    rewrite list_lookup_fmap in Hi.
    destruct (take _ _ !! i) as [l|] eqn:Htake; [|done].
    apply lookup_take_Some in Htake as [Hl Hlt].
    assert (i = solved db self) as Heq; [|unfold solved in *; lia].
    apply (NoDup_lookup _ _ _ (level_pk level) (wf_level_pk db Hwf));
      rewrite list_lookup_fmap.
    - by rewrite Hl.
    - by rewrite Hlevel. }
  rewrite bool_decide_false; cycle 1.
  { unfold member_count in Hmembers.
    destruct (members_of (team_pk self) db) as [|m ms] eqn:Hm; [done|].
    assert (m ∈ members_of (team_pk self) db) as Hin by (rewrite Hm; left).
    apply list_elem_of_filter in Hin as [<- Hin].
    by apply (wf_member_team db Hwf). }
  rewrite bool_decide_false; [done|].
  apply (filter_not_nil _ _ level); [|done].
  apply list_elem_of_lookup; eauto.
Qed.

Lemma wf_with_submission db self level :
  wf db ->
  Level_table db !! solved db self = Some level ->
  wf (with_submission db self level).
Proof.
  intros Hwf Hlevel. destruct Hwf. split; try done.
  intros pk. unfold with_submission, submissions_of in *. cbn.
  rewrite filter_app, filter_cons, filter_nil. cbn.
  case_decide as Hpk; [|rewrite app_nil_r; apply wf_progress0].
  subst pk. rewrite fmap_app, length_app. cbn.
  rewrite Nat.add_1_r, (take_S_r _ _ level) by done.
  rewrite fmap_app. cbn. f_equal. apply wf_progress0.
Qed.

Lemma wf_submit_attempt db team attempt :
  wf db -> wf (snd (submit_attempt team attempt db)).
Proof.
  intros Hwf. rewrite submit_attempt_eq.
  case_bool_decide as Hmembers; [done|].
  destruct (Level_table db !! solved db team) as [level|] eqn:Hlevel; [|done].
  destruct (is_correct level attempt); [|done].
  rewrite Submission_objects_create_next by done.
  by apply wf_with_submission.
Qed.

Lemma wf_exec db c : wf db -> wf (exec db c).
Proof.
  destruct c; cbn [exec];
    auto using wf_Team_objects_create, wf_Level_objects_create,
      wf_add_member, wf_remove_member, wf_submit_attempt.
Qed.

Lemma wf_run calls db : wf db -> wf (run calls db).
Proof.
  revert db. induction calls as [|c calls IH]; intros db Hwf; [done|].
  apply IH, wf_exec, Hwf.
Qed.

Lemma wf_reachable calls : wf (run calls empty_db).
Proof. apply wf_run, wf_empty. Qed.

(** C1: in every database the calls can build, no team has more than
    [MAX_MEMBERS_PER_TEAM] members; [add_member] on a team that has that
    many raises the capacity error that names the team and writes nothing;
    on a team with fewer the insert is made, and where the storage accepts
    it the team has one member more. *)
Theorem add_member_respects_capacity
    (calls : list call) (self : Team) (user : User) :
  let db := run calls empty_db in
  member_count db self <= MAX_MEMBERS_PER_TEAM
  /\ (member_count db self = MAX_MEMBERS_PER_TEAM ->
      add_member self user db
      = (Raise (ValueError ("Team '" ++ team_name self
                              ++ "' is not accepting members")), db))
  /\ (member_count db self < MAX_MEMBERS_PER_TEAM ->
      add_member self user db
      = match TeamMember_objects_create self user db with
        | (Return _, db') => (Return tt, db')
        | (Raise e, _) => (Raise e, db)
        end)
  /\ (member_count db self < MAX_MEMBERS_PER_TEAM ->
      memberships_of user db = [] ->
      teams_with_pk (team_pk self) db <> [] ->
      exists db',
        add_member self user db = (Return tt, db')
        /\ TeamMember_table db'
           = TeamMember_table db
               ++ [mkTeamMember (S (TeamMember_seq db)) (team_pk self) user]
        /\ member_count db' self = S (member_count db self)).
Proof.
  intros db. split; [apply (wf_capacity _ (wf_reachable calls))|].
  rewrite add_member_eq.
  split; [|split].
  - intros Hfull. by rewrite bool_decide_false by lia.
  - intros Hroom. by rewrite bool_decide_true.
  - intros Hroom Hfree Hteam. rewrite bool_decide_true by done.
    unfold TeamMember_objects_create.
    rewrite bool_decide_true, bool_decide_false by done.
    eexists. split; [done|]. split; [done|].
    unfold member_count, members_of. cbn.
    rewrite filter_app, length_app, filter_cons_True by done. cbn. lia.
Qed.

Lemma add_member_respects_capacity_witness :
  add_member team_T 5 full_team
  = (Raise (ValueError "Team 'T' is not accepting members"), full_team)
  /\ exists db',
       add_member team_T 7 fresh_team = (Return tt, db')
       /\ TeamMember_table db'
          = TeamMember_table fresh_team ++ [mkTeamMember 1 1 7]
       /\ member_count db' team_T = 1.
Proof.
  split.
  - apply (add_member_respects_capacity
             [CreateTeam "T"; AddMember team_T 1; AddMember team_T 2;
              AddMember team_T 3; AddMember team_T 4] team_T 5).
    vm_compute. reflexivity.
  - apply (add_member_respects_capacity [CreateTeam "T"] team_T 7).
    + vm_compute. lia.
    + vm_compute. reflexivity.
    + vm_compute. discriminate.
Defined.


(** C3: when a team with members has a next level, [submit_attempt] with
    that level's answer returns true and appends one Submission row, of the
    team and the level; [next_level_index] is then one more, and when the
    level was the last one [can_submit] is false and [next_level] is None. *)
Theorem correct_attempt_advances
    (calls : list call) (self : Team) (level : Level) (attempt : string) :
  let db := run calls empty_db in
  result (is_empty self) db = Return false ->
  result (next_level self) db = Return (Some level) ->
  is_correct level attempt = true ->
  exists db' n,
    submit_attempt self attempt db = (Return true, db')
    /\ Submission_table db'
       = Submission_table db
           ++ [mkSubmission (S (Submission_seq db)) (team_pk self)
                            (level_pk level)]
    /\ Team_table db' = Team_table db
    /\ TeamMember_table db' = TeamMember_table db
    /\ Level_table db' = Level_table db
    /\ result (next_level_index self) db = Return n
    /\ result (next_level_index self) db' = Return (S n)
    /\ (S n = length (Level_table db) ->
        result (can_submit self) db' = Return false
        /\ result (next_level self) db' = Return None).
Proof.
  intros db. unfold result.
  rewrite is_empty_eq, next_level_eq, next_level_index_eq. cbn [fst].
  intros Hmembers Hlevel Hcorrect.
  assert (member_count db self <> 0) as Hne.
  { intros Hz. by rewrite bool_decide_true in Hmembers. }
  assert (Level_table db !! solved db self = Some level) as Hl by congruence.
  exists (with_submission db self level), (solved db self).
  assert (solved (with_submission db self level) self = S (solved db self))
    as Hsolved.
  { unfold solved, submissions_of. cbn.
    rewrite filter_app, length_app, filter_cons_True by done. cbn. lia. }
  assert (wf db) as Hwf by apply wf_reachable.
  split.
  { rewrite submit_attempt_eq, bool_decide_false, Hl, Hcorrect by done.
    by rewrite Submission_objects_create_next. }
  rewrite next_level_index_eq, can_submit_eq, next_level_eq, Hsolved.
  cbn [fst with_submission Submission_table Team_table TeamMember_table
       Level_table].
  repeat (split; [done|]).
  intros Hlast. rewrite lookup_ge_None_2 by lia.
  rewrite (bool_decide_false (None <> None)) by (intros H; by apply H).
  by rewrite andb_false_r.
Qed.

Lemma correct_attempt_advances_witness :
  exists db' n,
    submit_attempt team_T "flag1" one_level_one_member = (Return true, db')
    /\ Submission_table db'
       = Submission_table one_level_one_member ++ [mkSubmission 1 1 1]
    /\ Team_table db' = Team_table one_level_one_member
    /\ TeamMember_table db' = TeamMember_table one_level_one_member
    /\ Level_table db' = Level_table one_level_one_member
    /\ result (next_level_index team_T) one_level_one_member = Return n
    /\ result (next_level_index team_T) db' = Return (S n)
    /\ (S n = length (Level_table one_level_one_member) ->
        result (can_submit team_T) db' = Return false
        /\ result (next_level team_T) db' = Return None).
Proof.
  apply (correct_attempt_advances
           [CreateLevel "L1" (encoded "flag1"); CreateTeam "T";
            AddMember team_T 7]
           team_T (mkLevel 1 "L1" (encoded "flag1")) "flag1");
    vm_compute; reflexivity.
Defined.

(** ** One team per user *)

Lemma filter_key_unique {A} (f : A -> nat) (k : nat) (l : list A) :
  NoDup (f <$> l) ->
  filter (fun x => f x = k) l = []
  \/ exists x, filter (fun x => f x = k) l = [x].
Proof.
  induction l as [|a l IH]; [by left|].
  rewrite fmap_cons. intros [Ha Hnd]%NoDup_cons.
  rewrite filter_cons. case_decide as Hk; [|by apply IH].
  right. exists a. f_equal. apply filter_none.
  intros x Hx Hfx. apply Ha, list_elem_of_fmap. exists x. split; congruence.
Qed.

Lemma NoDup_fmap_inj {A} (f : A -> nat) (l : list A) (x y : A) :
  NoDup (f <$> l) -> x ∈ l -> y ∈ l -> f x = f y -> x = y.
Proof.
  intros Hnd [i Hi]%list_elem_of_lookup [j Hj]%list_elem_of_lookup Hf.
  assert (i = j) as ->; [|congruence].
  apply (NoDup_lookup _ _ _ (f x) Hnd); rewrite list_lookup_fmap.
  - by rewrite Hi.
  - rewrite Hj. cbn. by rewrite Hf.
Qed.

(** [find_team] in a well-formed database. *)
Lemma find_team_eq db user :
  wf db ->
  (memberships_of user db = [] /\ find_team user db = (Return None, db))
  \/ (exists m t,
        memberships_of user db = [m]
        /\ teams_with_pk (member_team m) db = [t]
        /\ find_team user db = (Return (Some t), db)).
Proof.
  intros Hwf.
  unfold find_team, try_except_DoesNotExist, TeamMember_objects_get,
    TeamMember_team, objects_get.
  unfold_M.
  assert (memberships_of user db = []
          \/ exists m, memberships_of user db = [m]) as [Hnone|[m Hm]]
    by apply (filter_key_unique member_user), (wf_uk_user db Hwf).
  - left. by rewrite Hnone.
  - right. rewrite Hm.
    assert (m ∈ TeamMember_table db) as Hin.
    { assert (m ∈ memberships_of user db) as Hin by (rewrite Hm; left).
      by apply list_elem_of_filter in Hin as [_ Hin]. }
    assert (teams_with_pk (member_team m) db = []
            \/ exists t, teams_with_pk (member_team m) db = [t])
      as [Hnone|[t Ht]]
      by apply (filter_key_unique team_pk), (wf_team_pk db Hwf).
    + by destruct (wf_member_team db Hwf m Hin).
    + exists m, t. by rewrite Ht.
Qed.

(** C7, as the code has it: in every database the calls can build a user
    has at most one membership row; [add_member] of a user who has one
    never succeeds and writes nothing: on a team that accepts members it
    raises the uniqueness violation of the storage, on a full team the
    capacity error; [find_team] returns the one team the user has a row in,
    and None exactly when the user has no row. *)
Theorem one_team_per_user (calls : list call) (self : Team) (user : User) :
  let db := run calls empty_db in
  (forall m1 m2,
      m1 ∈ TeamMember_table db -> m2 ∈ TeamMember_table db ->
      member_user m1 = member_user m2 -> m1 = m2)
  /\ (memberships_of user db <> [] ->
      (member_count db self < MAX_MEMBERS_PER_TEAM ->
       add_member self user db = (Raise (IntegrityError uk_user), db))
      /\ (member_count db self = MAX_MEMBERS_PER_TEAM ->
          add_member self user db = (Raise (capacity_error self), db))
      /\ exists e, add_member self user db = (Raise e, db))
  /\ (forall t,
        result (find_team user) db = Return (Some t)
        <-> t ∈ Team_table db
            /\ exists m, m ∈ TeamMember_table db
                         /\ member_user m = user
                         /\ member_team m = team_pk t)
  /\ (result (find_team user) db = Return None
      <-> forall m, m ∈ TeamMember_table db -> member_user m <> user).
Proof.
  intros db. assert (wf db) as Hwf by apply wf_reachable.
  split; [|split; [|split]].
  - intros m1 m2. apply NoDup_fmap_inj, (wf_uk_user db Hwf).
  - intros Hhas. rewrite add_member_eq. unfold TeamMember_objects_create.
    rewrite (bool_decide_false (memberships_of user db = [])) by done.
    split; [|split].
    + intros Hroom. by rewrite bool_decide_true.
    + intros Hfull. by rewrite bool_decide_false by lia.
    + case_bool_decide; eauto.
  - intros t. unfold result.
    destruct (find_team_eq db user Hwf)
      as [[Hnone ->]|(m & t' & Hm & Ht & ->)]; cbn [fst].
    + split; [done|]. intros (_ & m & Hin & Hu & _).
      by destruct (filter_nil_all _ _ m Hnone Hin).
    + assert (m ∈ memberships_of user db) as Hmin by (rewrite Hm; left).
      assert (t' ∈ teams_with_pk (member_team m) db) as Htin
        by (rewrite Ht; left).
      apply list_elem_of_filter in Hmin as [Hmu Hmin].
      apply list_elem_of_filter in Htin as [Htpk Htin].
      split.
      * intros [= <-]. eauto 10.
      * intros (Hin & m' & Hin' & Hu & Hpk). f_equal. f_equal.
        assert (m' = m) as ->
          by (apply (NoDup_fmap_inj member_user (TeamMember_table db));
              [apply (wf_uk_user db Hwf)|done|done|congruence]).
        apply (NoDup_fmap_inj team_pk (Team_table db));
          [apply (wf_team_pk db Hwf)|done|done|congruence].
  - unfold result.
    destruct (find_team_eq db user Hwf)
      as [[Hnone ->]|(m & t' & Hm & Ht & ->)]; cbn [fst].
    + split; [|done]. intros _ m Hin. by apply (filter_nil_all _ _ m Hnone).
    + split; [done|]. intros Hno.
      assert (m ∈ memberships_of user db) as Hmin by (rewrite Hm; left).
      apply list_elem_of_filter in Hmin as [Hmu Hmin].
      by destruct (Hno m Hmin).
Qed.

Lemma one_team_per_user_witness :
  add_member team_T 7 one_level_one_member
  = (Raise (IntegrityError uk_user), one_level_one_member)
  /\ result (find_team 7) one_level_one_member = Return (Some team_T)
  /\ result (find_team 8) one_level_one_member = Return None.
Proof.
  destruct (one_team_per_user
              [CreateLevel "L1" (encoded "flag1"); CreateTeam "T";
               AddMember team_T 7] team_T 7)
    as (_ & Hadd & Hfind & _).
  destruct (one_team_per_user
              [CreateLevel "L1" (encoded "flag1"); CreateTeam "T";
               AddMember team_T 7] team_T 8)
    as (_ & _ & _ & Hnone).
  split; [|split].
  - apply Hadd; [vm_compute; discriminate|vm_compute; lia].
  - apply Hfind. split; [vm_compute; left|].
    exists (mkTeamMember 1 1 7). split; [vm_compute; left|done].
  - apply Hnone. intros m ->%list_elem_of_singleton. discriminate.
Defined.


(** C7, the counterexample: on a full team, [add_member] of a user who
    already has a membership row raises the capacity error, not the
    uniqueness violation. *)
Lemma add_member_full_team_raises_capacity_error :
  length (memberships_of 1 full_team) = 1
  /\ add_member team_T 1 full_team
     = (Raise (ValueError "Team 'T' is not accepting members"), full_team).
Proof. split; vm_compute; reflexivity. Qed.

(** ** Progress *)

(** One call either keeps or raises a team's count of submissions, or it
    is the [remove_member] that takes the team's last member away. *)
Lemma solved_exec db self c :
  solved db self <= solved (exec db c) self
  \/ (exists team user,
        c = RemoveMember team user
        /\ team_pk team = team_pk self
        /\ other_members db team user = []
        /\ teams_with_pk (team_pk self) (exec db c) = []
        /\ member_count (exec db c) self = 0
        /\ solved (exec db c) self = 0).
Proof.
  destruct c as [name|name answer|team user|team user|team attempt];
    cbn [exec].
  - by left.
  - left. unfold Level_objects_create. by case_bool_decide.
  - left. rewrite add_member_eq. unfold TeamMember_objects_create.
    by repeat case_bool_decide.
  - rewrite remove_member_eq. cbn [snd].
    case_bool_decide as Hothers; [|by left].
    destruct (decide (team_pk team = team_pk self)) as [Hpk|Hpk].
    + right. exists team, user. repeat (split; [done|]).
      unfold teams_with_pk, member_count, solved, members_of, submissions_of.
      cbn. rewrite <- Hpk. split; [|split].
      * apply filter_none. by intros t [? _]%list_elem_of_filter.
      * rewrite filter_none; [done|].
        intros m [Hrow Hm]%list_elem_of_filter Hteam.
        apply (filter_nil_all _ _ m Hothers Hm).
        split; [done|]. intros Hu. by apply Hrow.
      * rewrite filter_none; [done|].
        by intros sub [? _]%list_elem_of_filter.
    + left. unfold solved, submissions_of. cbn.
      rewrite list_filter_filter_l; [done|]. intros s. congruence.
  - left. rewrite submit_attempt_eq.
    case_bool_decide; [done|].
    destruct (Level_table db !! solved db team) as [level|]; [|done].
    destruct (is_correct level attempt); [|done].
    unfold Submission_objects_create. repeat case_bool_decide; try done.
    unfold solved, submissions_of. cbn. rewrite filter_app, length_app. lia.
Qed.

(** One call keeps the Submission rows there are, and may append one,
    unless it is a [remove_member] that takes a team's last member away:
    then that team's rows are dropped and the others kept. *)
Lemma Submission_table_exec db c :
  Submission_table db `prefix_of` Submission_table (exec db c)
  \/ (exists team user,
        c = RemoveMember team user
        /\ other_members db team user = []
        /\ Submission_table (exec db c)
           = filter (fun s => submission_team s <> team_pk team)
                    (Submission_table db)).
Proof.
  destruct c as [name|name answer|team user|team user|team attempt];
    cbn [exec].
  - by left.
  - left. unfold Level_objects_create. by case_bool_decide.
  - left. rewrite add_member_eq. unfold TeamMember_objects_create.
    by repeat case_bool_decide.
  - rewrite remove_member_eq. cbn [snd].
    case_bool_decide as Hothers; [|by left].
    right. by exists team, user.
  - left. rewrite submit_attempt_eq.
    case_bool_decide; [done|].
    destruct (Level_table db !! solved db team) as [level|]; [|done].
    destruct (is_correct level attempt); [|done].
    unfold Submission_objects_create. repeat case_bool_decide; try done.
    by apply prefix_app_r.
Qed.

(** C2, as the code has it: [next_level_index] is the count of the team's
    Submission rows; a call never lowers it, except the [remove_member]
    that leaves the team without members, which deletes the team and its
    submissions with it; no other call removes or rewrites a Submission
    row; over calls that are no [remove_member] on the team the index
    never decreases. *)
Theorem next_level_index_monotone_while_team_lives
    (db : DB) (self : Team) (c : call) (calls : list call) :
  result (next_level_index self) db
  = Return (length (filter (fun s => submission_team s = team_pk self)
                           (Submission_table db)))
  /\ (solved db self <= solved (exec db c) self
      \/ (exists team user,
            c = RemoveMember team user
            /\ team_pk team = team_pk self
            /\ other_members db team user = []
            /\ teams_with_pk (team_pk self) (exec db c) = []
            /\ member_count (exec db c) self = 0
            /\ solved (exec db c) self = 0))
  /\ (Submission_table db `prefix_of` Submission_table (exec db c)
      \/ (exists team user,
            c = RemoveMember team user
            /\ other_members db team user = []
            /\ Submission_table (exec db c)
               = filter (fun s => submission_team s <> team_pk team)
                        (Submission_table db)))
  /\ (Forall (fun c => ~ leaves self c) calls ->
      solved db self <= solved (run calls db) self).
Proof.
  split; [done|]. split; [apply solved_exec|].
  split; [apply Submission_table_exec|].
  intros Hcalls. revert db.
  induction Hcalls as [|c' calls' Hc _ IH]; intros db; [done|].
  unfold run in *. cbn [fold_left]. etrans; [|apply IH].
  destruct (solved_exec db self c') as [Hle|(team & user & -> & Hpk & _)];
    [done|]. by destruct Hc.
Qed.

Lemma next_level_index_monotone_while_team_lives_witness :
  solved one_level_one_member team_T
  <= solved (run [SubmitAttempt team_T "wrong"; AddMember team_T 9;
                  SubmitAttempt team_T "flag1"; RemoveMember (mkTeam 2 "U") 7]
                 one_level_one_member) team_T.
Proof.
  apply (next_level_index_monotone_while_team_lives one_level_one_member
           team_T (CreateTeam "U")).
  repeat constructor; cbn; auto.
Defined.


(** C2, the counterexample: a team that has solved one level loses its
    only member; the team is deleted, its Submission row with it, and its
    [next_level_index] falls from 1 to 0. *)
Lemma remove_last_member_deletes_submissions :
  result (next_level_index team_T) one_level_solved = Return 1
  /\ Submission_table one_level_solved = [mkSubmission 1 1 1]
  /\ result (next_level_index team_T)
       (exec one_level_solved (RemoveMember team_T 7)) = Return 0
  /\ Submission_table (exec one_level_solved (RemoveMember team_T 7)) = [].
Proof. repeat split; vm_compute; reflexivity. Qed.

(** ** The model on the scenarios of [tests.py] *)

Example test_cannot_create_more_members_than_max :
  member_count full_team team_T = MAX_MEMBERS_PER_TEAM
  /\ result (add_member team_T 5) full_team
     = Raise (ValueError "Team 'T' is not accepting members").
Proof. split; vm_compute; reflexivity. Qed.

Example test_cannot_add_same_member_twice :
  result (add_member team_T 7) one_level_one_member
  = Raise (IntegrityError uk_user).
Proof. vm_compute. reflexivity. Qed.

Example test_same_user_cannot_join_multiple_teams :
  result (add_member (mkTeam 2 "U") 7) two_teams
  = Raise (IntegrityError uk_user).
Proof. vm_compute. reflexivity. Qed.

Example test_remove_last_member_deletes_team :
  length (TeamMember_table one_level_one_member) = 1
  /\ TeamMember_table (exec one_level_one_member (RemoveMember team_T 7)) = []
  /\ Team_table (exec one_level_one_member (RemoveMember team_T 7)) = [].
Proof. repeat split; vm_compute; reflexivity. Qed.

Example test_cannot_submit_when_team_is_empty :
  result (can_submit team_T) fresh_team = Return false
  /\ result (can_submit team_T) fresh_team_one_level = Return false.
Proof. split; vm_compute; reflexivity. Qed.

Example test_submit_fails_for_incorrect_answer :
  result (submit_attempt team_T "incorrect") one_level_one_member
  = Return false.
Proof. vm_compute. reflexivity. Qed.

Example test_submit_accepts_correct_answer :
  result (next_level_index team_T) one_level_one_member = Return 0
  /\ result (can_submit team_T) one_level_one_member = Return true
  /\ result (next_level team_T) one_level_one_member
     = Return (Some (mkLevel 1 "L1" (encoded "flag1")))
  /\ result (submit_attempt team_T "flag1") one_level_one_member = Return true
  /\ result (next_level_index team_T) one_level_solved = Return 1
  /\ result (can_submit team_T) one_level_solved = Return false
  /\ result (next_level team_T) one_level_solved = Return None.
Proof. repeat split; vm_compute; reflexivity. Qed.

Example test_submit_accepts_correct_answer_sequence :
  (fun k => solved (run (SubmitAttempt team_T <$> take k six_answers)
                        six_levels) team_T) <$> [0; 1; 2; 3; 4; 5; 6]
  = [0; 1; 2; 3; 4; 5; 6]
  /\ (fun k => result (can_submit team_T)
                 (run (SubmitAttempt team_T <$> take k six_answers)
                      six_levels)) <$> [0; 5; 6]
     = [Return true; Return true; Return false]
  /\ result (next_level team_T)
       (run (SubmitAttempt team_T <$> six_answers) six_levels) = Return None.
Proof. repeat split; vm_compute; reflexivity. Qed.

Example test_cannot_create_level_with_same_name :
  result (Level_objects_create "foo" (encoded "baz"))
         (run [CreateLevel "foo" (encoded "bar")] empty_db)
  = Raise (IntegrityError level_name_unique).
Proof. vm_compute. reflexivity. Qed.

(** ** The digest as a string *)

Lemma String_length_app (s1 s2 : string) :
  String.length (s1 ++ s2) = String.length s1 + String.length s2.
Proof. induction s1 as [|c s1 IH]; simpl; [done|]. by rewrite IH. Qed.

Lemma is_hex_app (s1 s2 : string) :
  is_hex (s1 ++ s2) = is_hex s1 && is_hex s2.
Proof.
  induction s1 as [|c s1 IH]; simpl; [done|]. by rewrite IH, andb_assoc.
Qed.

Lemma hex_length k n : String.length (SHA1.hex k n) = k.
Proof. induction k as [|k IH]; simpl; [done|]. by rewrite IH. Qed.

Lemma hex_digit_is_hex (n : Z) :
  is_hex_digit (SHA1.hex_digit (Z.land n 15)) = true.
Proof.
  assert (0 <= Z.land n 15 < 16)%Z as Hrange.
  { change 15%Z with (Z.ones 4). rewrite Z.land_ones by lia.
    apply Z.mod_pos_bound. lia. }
  destruct (Z.land n 15) as [|p|p]; [done| |lia].
  do 4 (destruct p as [p|p|]; try lia; try done).
Qed.

Lemma hex_is_hex k n : is_hex (SHA1.hex k n) = true.
Proof.
  induction k as [|k IH]; [done|].
  cbn [SHA1.hex is_hex]. by rewrite hex_digit_is_hex, IH.
Qed.

(** X1: whatever the attempt, [encoded] returns 40 lowercase hexadecimal
    digits, which fit the [answer] column of a Level. *)
Theorem encoded_is_40_hex_digits (answer_attempt : string) :
  String.length (encoded answer_attempt) = 40
  /\ is_hex (encoded answer_attempt) = true
  /\ String.length (encoded answer_attempt) <= answer_max_length.
Proof.
  unfold encoded, SHA1.hexdigest, answer_max_length. cbv zeta.
  rewrite !String_length_app, !hex_length, !is_hex_app, !hex_is_hex.
  repeat split; cbn; lia.
Qed.

(** ** What [submit_attempt] can do *)

(** X2: in any database [submit_attempt] ends in one of five ways: the
    illegal-state error of its first guard, False, True, or a refusal of
    the insert by the (team, level) constraint or by the team's foreign
    key. The error of its second guard ("there is no next level") is never
    raised, and the level's foreign key never refuses. *)
Theorem submit_attempt_outcomes (db : DB) (self : Team) (attempt : string) :
  result (submit_attempt self attempt) db
  = Raise (ValueError "Illegal state: team cannot submit solutions")
  \/ result (submit_attempt self attempt) db = Return false
  \/ result (submit_attempt self attempt) db = Return true
  \/ result (submit_attempt self attempt) db
     = Raise (IntegrityError uk_team_level)
  \/ result (submit_attempt self attempt) db = Raise (IntegrityError fk_team).
Proof.
  unfold result. rewrite submit_attempt_eq.
  case_bool_decide; [by left|].
  destruct (Level_table db !! solved db self) as [level|] eqn:Hlevel;
    [|by left].
  destruct (is_correct level attempt); [|by right; left].
  unfold Submission_objects_create.
  case_bool_decide; [|by do 3 right; left].
  case_bool_decide; [by do 4 right|].
  rewrite bool_decide_false; [by right; right; left|].
  apply (filter_not_nil _ _ level); [|done].
  apply list_elem_of_lookup. eauto.
Qed.

(** X3: in a database the calls have built, the insert of [submit_attempt]
    is never refused: the call raises the illegal-state error, or returns
    False and writes nothing, or returns True. *)
Theorem submit_attempt_never_refused
    (calls : list call) (self : Team) (attempt : string) :
  let db := run calls empty_db in
  submit_attempt self attempt db
  = (Raise (ValueError "Illegal state: team cannot submit solutions"), db)
  \/ submit_attempt self attempt db = (Return false, db)
  \/ exists level,
       result (next_level self) db = Return (Some level)
       /\ submit_attempt self attempt db
          = (Return true, with_submission db self level).
Proof.
  intros db. assert (wf db) as Hwf by apply wf_reachable.
  unfold result. rewrite submit_attempt_eq, next_level_eq.
  case_bool_decide; [by left|].
  destruct (Level_table db !! solved db self) as [level|] eqn:Hlevel;
    [|by left].
  destruct (is_correct level attempt); [|by right; left].
  right; right. exists level. split; [done|].
  by rewrite Submission_objects_create_next.
Qed.

(** ** The levels under the calls *)

Lemma Level_table_exec db c :
  Level_table db `prefix_of` Level_table (exec db c)
  /\ (call_team c <> None -> Level_table (exec db c) = Level_table db).
Proof.
  destruct c as [name|name answer|team user|team user|team attempt];
    cbn [exec call_team].
  - done.
  - split; [|done]. unfold Level_objects_create.
    case_bool_decide; [|done]. by apply prefix_app_r.
  - assert (Level_table (snd (add_member team user db)) = Level_table db)
      as ->; [|done].
    rewrite add_member_eq. unfold TeamMember_objects_create.
    by repeat case_bool_decide.
  - assert (Level_table (snd (remove_member team user db)) = Level_table db)
      as ->; [|done].
    rewrite remove_member_eq. by case_bool_decide.
  - assert (Level_table (snd (submit_attempt team attempt db))
            = Level_table db) as ->; [|done].
    rewrite submit_attempt_eq. case_bool_decide; [done|].
    destruct (Level_table db !! solved db team) as [level|]; [|done].
    destruct (is_correct level attempt); [|done].
    unfold Submission_objects_create. by repeat case_bool_decide.
Qed.

(** X4: no sequence of calls removes, reorders or rewrites a level: the
    levels there were stay at their positions; the methods of a team leave
    the Level table as it is. *)
Theorem levels_are_append_only (db : DB) (calls : list call) :
  Level_table db `prefix_of` Level_table (run calls db)
  /\ (Forall (fun c => call_team c <> None) calls ->
      Level_table (run calls db) = Level_table db).
Proof.
  revert db. induction calls as [|c calls IH]; intros db; [done|].
  unfold run in *. cbn [fold_left].
  destruct (Level_table_exec db c) as [Hprefix Hsame].
  destruct (IH (exec db c)) as [IHprefix IHsame].
  split; [by etrans|].
  intros [Hc Hcalls]%Forall_cons. by rewrite IHsame, Hsame.
Qed.

Lemma levels_are_append_only_witness :
  Level_table (run [SubmitAttempt team_T "flag1"; RemoveMember team_T 7;
                    AddMember team_T 8] one_level_one_member)
  = Level_table one_level_one_member.
Proof.
  apply (levels_are_append_only one_level_one_member).
  repeat constructor; discriminate.
Defined.

(** ** More on leaving and joining *)





(** X6: [remove_member] never leaves an empty team behind: after it the
    team either has a member or has no row any more. *)
Theorem remove_member_leaves_no_empty_team
    (db : DB) (self : Team) (user : User) :
  teams_with_pk (team_pk self) (snd (remove_member self user db)) = []
  \/ 0 < member_count (snd (remove_member self user db)) self.
Proof.
  rewrite remove_member_eq. cbn [snd].
  case_bool_decide as Hothers.
  - left. unfold teams_with_pk. cbn. apply filter_none.
    by intros t [? _]%list_elem_of_filter.
  - right. unfold member_count. rewrite members_of_without_member.
    destruct (other_members db self user); [done|cbn; lia].
Qed.

(** X7: [add_member] touches the membership table only, and adds at most
    one row, which is of this team and this user; when it raises, the
    database is as it was. *)
Theorem add_member_frame (db : DB) (self : Team) (user : User) :
  Team_table (snd (add_member self user db)) = Team_table db
  /\ Level_table (snd (add_member self user db)) = Level_table db
  /\ Submission_table (snd (add_member self user db)) = Submission_table db
  /\ ((exists e, add_member self user db = (Raise e, db))
      \/ (add_member self user db
          = (Return tt, snd (add_member self user db))
          /\ TeamMember_table (snd (add_member self user db))
             = TeamMember_table db
                 ++ [mkTeamMember (S (TeamMember_seq db)) (team_pk self)
                                  user])).
Proof.
  rewrite add_member_eq. unfold TeamMember_objects_create.
  repeat case_bool_decide; cbn; repeat (split; [done|]); eauto.
Qed.

(** ** [find_team] in any database *)

(** What [find_team] does with each count of rows for the user: with none
    it returns None; with more than one it raises MultipleObjectsReturned;
    with one whose team has no row it raises the DoesNotExist of Team, which
    its handler, for TeamMember's, lets through; it never writes. *)
Lemma find_team_by_rows (db : DB) (user : User) :
  snd (find_team user db) = db
  /\ (memberships_of user db = [] ->
      result (find_team user) db = Return None)
  /\ (1 < length (memberships_of user db) ->
      result (find_team user) db
      = Raise (MultipleObjectsReturned "TeamMember"))
  /\ (forall m, memberships_of user db = [m] ->
                teams_with_pk (member_team m) db = [] ->
                result (find_team user) db = Raise (DoesNotExist "Team"))
  /\ (forall m t, memberships_of user db = [m] ->
                  teams_with_pk (member_team m) db = [t] ->
                  result (find_team user) db = Return (Some t)).
Proof.
  unfold result, find_team, try_except_DoesNotExist, TeamMember_objects_get,
    TeamMember_team, objects_get.
  unfold_M.
  split; [|split; [|split; [|split]]].
  - destruct (memberships_of user db) as [|m [|m' ms]]; [done| |done].
    by destruct (teams_with_pk (member_team m) db) as [|t [|t' ts]].
  - by intros ->.
  - destruct (memberships_of user db) as [|m [|m' ms]]; cbn; [lia|lia|done].
  - by intros m -> ->.
  - by intros m t -> ->.
Qed.


Lemma find_team_ext db1 db2 user :
  memberships_of user db1 = memberships_of user db2 ->
  (forall m, m ∈ memberships_of user db1 ->
             teams_with_pk (member_team m) db1
             = teams_with_pk (member_team m) db2) ->
  result (find_team user) db1 = result (find_team user) db2.
Proof.
  intros Hrows Hteams.
  unfold result, find_team, try_except_DoesNotExist, TeamMember_objects_get,
    TeamMember_team, objects_get.
  unfold_M. rewrite <- Hrows.
  destruct (memberships_of user db1) as [|m [|m' ms]]; [done| |done].
  rewrite <- (Hteams m) by left.
  by destruct (teams_with_pk (member_team m) db1) as [|t [|t' ts]].
Qed.

(** X8: [remove_member] of one user changes what [find_team] returns for
    no other user, whether or not the team is deleted; for the user
    removed, whose rows if any were in this team, [find_team] then returns
    None. *)
Theorem find_team_after_remove_member
    (db : DB) (self : Team) (user other : User) :
  (other <> user ->
   result (find_team other) (snd (remove_member self user db))
   = result (find_team other) db)
  /\ (Forall (fun m => member_team m = team_pk self)
             (memberships_of user db) ->
      result (find_team user) (snd (remove_member self user db))
      = Return None).
Proof.
  rewrite remove_member_eq. cbn [snd]. split.
  - intros Hne.
    assert (forall db', TeamMember_table db'
                        = TeamMember_table (without_member db self user) ->
                        memberships_of other db' = memberships_of other db)
      as Hrows.
    { intros db' Heq. unfold memberships_of. rewrite Heq. cbn.
      apply list_filter_filter_l. intros m Hm [_ Hu]. congruence. }
    case_bool_decide as Hothers; apply find_team_ext;
      try (by apply Hrows); [|done].
    intros m Hm. rewrite (Hrows (without_team db self user) eq_refl) in Hm.
    apply list_elem_of_filter in Hm as [Hu Hm].
    unfold teams_with_pk. cbn. apply list_filter_filter_l.
    intros t Ht Hpk. apply (filter_nil_all _ _ m Hothers Hm).
    split; congruence.
  - intros Hall.
    assert (forall db', TeamMember_table db'
                        = TeamMember_table (without_member db self user) ->
                        memberships_of user db' = []) as Hrows.
    { intros db' Heq. unfold memberships_of. rewrite Heq. cbn.
      rewrite list_filter_filter. apply filter_none.
      intros m Hm [Hu Hrow]. apply Hrow. split; [|done].
      apply (proj1 (Forall_forall _ _) Hall).
      apply list_elem_of_filter. by split. }
    case_bool_decide;
      by apply (proj1 (proj2 (find_team_by_rows _ user))), Hrows.
Qed.

Lemma find_team_after_remove_member_witness :
  result (find_team 2) (snd (remove_member team_T 1 full_team))
  = result (find_team 2) full_team
  /\ result (find_team 1) (snd (remove_member team_T 1 full_team))
     = Return None.
Proof.
  destruct (find_team_after_remove_member full_team team_T 1 2)
    as [Hother Huser].
  split; [apply Hother; discriminate|].
  apply Huser. vm_compute. repeat constructor.
Defined.

(** X9: joining then looking up: in a database the calls have built, once
    [add_member] has returned, [find_team] of that user returns the row of
    that team. *)
Theorem find_team_after_add_member
    (calls : list call) (self : Team) (user : User) (db' : DB) :
  add_member self user (run calls empty_db) = (Return tt, db') ->
  exists t,
    result (find_team user) db' = Return (Some t)
    /\ team_pk t = team_pk self
    /\ t ∈ Team_table (run calls empty_db).
Proof.
  set (db := run calls empty_db).
  assert (wf db) as Hwf by apply wf_reachable.
  rewrite add_member_eq. unfold TeamMember_objects_create.
  case_bool_decide as Hroom; [|done].
  case_bool_decide as Hfree; [|done].
  case_bool_decide as Hteam; [done|].
  intros [= <-].
  destruct (filter_key_unique team_pk (team_pk self) (Team_table db)
              (wf_team_pk db Hwf)) as [Hnone|[t Ht]]; [done|].
  exists t.
  assert (t ∈ filter (fun t => team_pk t = team_pk self) (Team_table db))
    as [Hpk Hin]%list_elem_of_filter by (rewrite Ht; left).
  split; [|done].
  apply (proj2 (proj2 (proj2 (proj2 (find_team_by_rows _ user))))
           (mkTeamMember (S (TeamMember_seq db)) (team_pk self) user)).
  - unfold memberships_of in *. cbn.
    by rewrite filter_app, Hfree, filter_cons_True.
  - done.
Qed.

Lemma find_team_after_add_member_witness :
  exists t,
    result (find_team 8) (snd (add_member team_T 8 one_level_one_member))
    = Return (Some t)
    /\ team_pk t = team_pk team_T
    /\ t ∈ Team_table one_level_one_member.
Proof.
  apply (find_team_after_add_member
           [CreateLevel "L1" (encoded "flag1"); CreateTeam "T";
            AddMember team_T 7] team_T 8).
  vm_compute. reflexivity.
Defined.

(** X10: joining then leaving: after an [add_member] that returned,
    [remove_member] of the same user puts the membership table back as it
    was; if the team had members before, the teams and submissions are as
    they were too; if it had none, the team is deleted, its submissions
    with it. *)
Theorem remove_member_after_add_member
    (db db1 : DB) (self : Team) (user : User) :
  add_member self user db = (Return tt, db1) ->
  TeamMember_table (snd (remove_member self user db1)) = TeamMember_table db
  /\ Level_table (snd (remove_member self user db1)) = Level_table db
  /\ (member_count db self <> 0 ->
      Team_table (snd (remove_member self user db1)) = Team_table db
      /\ Submission_table (snd (remove_member self user db1))
         = Submission_table db)
  /\ (member_count db self = 0 ->
      teams_with_pk (team_pk self) (snd (remove_member self user db1)) = []
      /\ submissions_of (team_pk self) (snd (remove_member self user db1))
         = []).
Proof.
  rewrite add_member_eq. unfold TeamMember_objects_create.
  case_bool_decide as Hroom; [|done].
  case_bool_decide as Hfree; [|done].
  case_bool_decide as Hteam; [done|].
  intros [= <-]. rewrite remove_member_eq. cbn [snd].
  assert (forall m, m ∈ TeamMember_table db -> member_user m <> user)
    as Hnot by (intros m Hm; by apply (filter_nil_all _ _ m Hfree)).
  set (db1 := mkDB _ _ _ _ _ _ _ _).
  assert (other_members db1 self user = members_of (team_pk self) db)
    as Hothers.
  { unfold other_members, members_of. cbn.
    rewrite filter_app, filter_cons_False, app_nil_r by (cbn; tauto).
    rewrite <- (list_filter_filter
                  (fun m => member_team m = team_pk self)
                  (fun m => member_user m <> user)).
    f_equal. by apply filter_all. }
  assert (filter (fun m => ~ (member_team m = team_pk self
                               /\ member_user m = user))
                 (TeamMember_table db1) = TeamMember_table db) as Hback.
  { cbn. rewrite filter_app, filter_cons_False, app_nil_r by (cbn; tauto).
    apply filter_all. intros m Hm [_ Hu]. by apply (Hnot m). }
  assert (Level_table db1 = Level_table db
          /\ Team_table db1 = Team_table db
          /\ Submission_table db1 = Submission_table db)
    as (Hlevels & Hteams & Hsubs) by done.
  clearbody db1. rewrite Hothers. unfold member_count.
  case_bool_decide as Hempty; cbn; rewrite Hback, Hlevels;
    (split; [done|]); (split; [done|]); split; try done.
  - by rewrite Hempty.
  - intros _. unfold teams_with_pk, submissions_of. cbn.
    split; apply filter_none; by intros x [? _]%list_elem_of_filter.
  - intros Hzero. by apply nil_length_inv in Hzero.
Qed.

Lemma remove_member_after_add_member_witness :
  TeamMember_table
    (snd (remove_member team_T 8 (snd (add_member team_T 8
                                         one_level_one_member))))
  = TeamMember_table one_level_one_member
  /\ Team_table
       (snd (remove_member team_T 8 (snd (add_member team_T 8
                                            one_level_one_member))))
     = Team_table one_level_one_member
  /\ teams_with_pk (team_pk team_T)
       (snd (remove_member team_T 7 (snd (add_member team_T 7 fresh_team))))
     = [].
Proof.
  destruct (remove_member_after_add_member one_level_one_member
              (snd (add_member team_T 8 one_level_one_member)) team_T 8)
    as (Hmembers & _ & Hstay & _); [vm_compute; reflexivity|].
  destruct (remove_member_after_add_member fresh_team
              (snd (add_member team_T 7 fresh_team)) team_T 7)
    as (_ & _ & _ & Hgone); [vm_compute; reflexivity|].
  split; [exact Hmembers|]. split.
  - apply Hstay. vm_compute. discriminate.
  - apply Hgone. vm_compute. reflexivity.
Defined.

(** ** Teams do not interfere *)

(** X11: a call made on one team ([add_member], [remove_member],
    [submit_attempt]) leaves the row, the members and the submissions of
    every other team as they were, and so what [can_submit],
    [next_level_index] and [next_level] return for it. *)
Theorem calls_on_a_team_leave_the_others
    (db : DB) (c : call) (team other : Team) :
  call_team c = Some team ->
  team_pk team <> team_pk other ->
  teams_with_pk (team_pk other) (exec db c) = teams_with_pk (team_pk other) db
  /\ members_of (team_pk other) (exec db c) = members_of (team_pk other) db
  /\ submissions_of (team_pk other) (exec db c)
     = submissions_of (team_pk other) db
  /\ result (can_submit other) (exec db c) = result (can_submit other) db
  /\ result (next_level_index other) (exec db c)
     = result (next_level_index other) db
  /\ result (next_level other) (exec db c) = result (next_level other) db.
Proof.
  intros Hteam Hpk.
  assert (Level_table (exec db c) = Level_table db) as Hlevels.
  { apply Level_table_exec. by rewrite Hteam. }
  assert (teams_with_pk (team_pk other) (exec db c)
          = teams_with_pk (team_pk other) db
          /\ members_of (team_pk other) (exec db c)
             = members_of (team_pk other) db
          /\ submissions_of (team_pk other) (exec db c)
             = submissions_of (team_pk other) db) as (Hteams & Hmembers & Hsubs).
  { clear Hlevels.
    destruct c as [name|name answer|team' user|team' user|team' attempt];
      cbn [call_team exec] in *; simplify_eq.
    - rewrite add_member_eq. unfold TeamMember_objects_create.
      repeat case_bool_decide; try done.
      unfold members_of. cbn.
      by rewrite filter_app, filter_cons_False, app_nil_r.
    - rewrite remove_member_eq. cbn [snd].
      unfold teams_with_pk, members_of, submissions_of.
      case_bool_decide; cbn; repeat split; try done;
        apply list_filter_filter_l; intros x; cbn; intros Hx;
        try (intros [? ?]); congruence.
    - rewrite submit_attempt_eq. case_bool_decide; [done|].
      destruct (Level_table db !! solved db team) as [level|]; [|done].
      destruct (is_correct level attempt); [|done].
      unfold Submission_objects_create. repeat case_bool_decide; try done.
      unfold submissions_of. cbn.
      by rewrite filter_app, filter_cons_False, app_nil_r. }
  repeat (split; [done|]).
  unfold result.
  rewrite !can_submit_eq, !next_level_index_eq, !next_level_eq.
  unfold member_count, solved. cbn [fst].
  by rewrite Hmembers, Hsubs, Hlevels.
Qed.

Lemma calls_on_a_team_leave_the_others_witness :
  members_of 1 (exec two_teams (AddMember (mkTeam 2 "U") 9))
  = members_of 1 two_teams
  /\ result (can_submit team_T)
       (exec two_teams (RemoveMember (mkTeam 2 "U") 9))
     = result (can_submit team_T) two_teams.
Proof.
  split.
  - apply (calls_on_a_team_leave_the_others two_teams
             (AddMember (mkTeam 2 "U") 9) (mkTeam 2 "U") team_T);
      [reflexivity|discriminate].
  - apply (calls_on_a_team_leave_the_others two_teams
             (RemoveMember (mkTeam 2 "U") 9) (mkTeam 2 "U") team_T);
      [reflexivity|discriminate].
Defined.

(** ** Foreign keys *)

Lemma teams_with_pk_without_team db self user pk :
  pk <> team_pk self ->
  teams_with_pk pk (without_team db self user) = teams_with_pk pk db.
Proof.
  intros Hpk. unfold teams_with_pk. cbn. apply list_filter_filter_l.
  intros t. cbn. congruence.
Qed.

Lemma refs_ok_exec db c : refs_ok db -> refs_ok (exec db c).
Proof.
  unfold refs_ok. rewrite !Forall_forall. intros [Hmembers Hsubs].
  destruct c as [name|name answer|team user|team user|team attempt];
    cbn [exec].
  - split.
    + intros m Hm. unfold teams_with_pk. cbn. rewrite filter_app.
      intros [Hnil _]%app_eq_nil. exact (Hmembers m Hm Hnil).
    + intros s Hs. split; [|exact (proj2 (Hsubs s Hs))].
      unfold teams_with_pk. cbn. rewrite filter_app.
      intros [Hnil _]%app_eq_nil. exact (proj1 (Hsubs s Hs) Hnil).
  - unfold Level_objects_create. case_bool_decide; [|done].
    split; [done|]. intros s Hs. split; [exact (proj1 (Hsubs s Hs))|].
    cbn. rewrite filter_app. intros [Hnil _]%app_eq_nil.
    exact (proj2 (Hsubs s Hs) Hnil).
  - rewrite add_member_eq. unfold TeamMember_objects_create.
    repeat case_bool_decide; try done.
    split; [|done].
    intros m [Hm| ->%list_elem_of_singleton]%elem_of_app; [|done].
    by apply Hmembers.
  - rewrite remove_member_eq. cbn [snd].
    case_bool_decide as Hothers.
    + split.
      * intros m [Hrow Hm]%list_elem_of_filter.
        rewrite teams_with_pk_without_team; [by apply Hmembers|].
        intros Hpk. apply (filter_nil_all _ _ m Hothers Hm).
        split; [done|]. intros Hu. by apply Hrow.
      * intros s [Hpk Hs]%list_elem_of_filter.
        rewrite teams_with_pk_without_team by done. by apply Hsubs.
    + split; [|done].
      intros m [_ Hm]%list_elem_of_filter. by apply Hmembers.
  - rewrite submit_attempt_eq. case_bool_decide; [done|].
    destruct (Level_table db !! solved db team) as [level|]; [|done].
    destruct (is_correct level attempt); [|done].
    unfold Submission_objects_create. repeat case_bool_decide; try done.
    split; [done|].
    intros s [Hs| ->%list_elem_of_singleton]%elem_of_app; [|done].
    by apply Hsubs.
Qed.

Lemma refs_ok_reachable calls : refs_ok (run calls empty_db).
Proof.
  assert (forall db, refs_ok db -> refs_ok (run calls db)) as Hrun.
  { induction calls as [|c calls IH]; intros db Hdb; [done|].
    apply IH, refs_ok_exec, Hdb. }
  apply Hrun. split; apply Forall_nil_2.
Qed.

(** X12: the calls keep every foreign key valid: in a database they have
    built each membership row is of a team that has a row, and each
    submission row is of a team and of a level that have one; the
    deletion of a team leaves no row behind that refers to it. *)
Theorem foreign_keys_stay_valid (calls : list call) :
  Forall (fun m => exists t, t ∈ Team_table (run calls empty_db)
                             /\ team_pk t = member_team m)
         (TeamMember_table (run calls empty_db))
  /\ Forall (fun s =>
               (exists t, t ∈ Team_table (run calls empty_db)
                          /\ team_pk t = submission_team s)
               /\ (exists l, l ∈ Level_table (run calls empty_db)
                             /\ level_pk l = submission_level s))
            (Submission_table (run calls empty_db)).
Proof.
  assert (forall {A} (P : A -> Prop) `{!forall x, Decision (P x)} (l : list A),
             filter P l <> [] -> exists x, x ∈ l /\ P x) as Hex.
  { intros A P ? l Hne. destruct (filter P l) as [|x xs] eqn:Hf; [done|].
    assert (x ∈ filter P l) as [? ?]%list_elem_of_filter
      by (rewrite Hf; left).
    eauto. }
  destruct (refs_ok_reachable calls) as [Hmembers Hsubs].
  split.
  - eapply Forall_impl; [exact Hmembers|]. intros m Hm. by apply Hex in Hm.
  - eapply Forall_impl; [exact Hsubs|]. intros s [Ht Hl].
    apply Hex in Ht. apply Hex in Hl. done.
Qed.

(** X13: a new team starts from nothing: in a database the calls have
    built, [Team.objects.create] returns a team with a key no row has or
    refers to, even after teams were deleted: it has no member and no
    submission, accepts members, and cannot submit. *)
Theorem new_team_starts_empty (calls : list call) (name : string) :
  let db := run calls empty_db in
  let team := mkTeam (S (Team_seq db)) name in
  let db' := snd (Team_objects_create name db) in
  result (Team_objects_create name) db = Return team
  /\ teams_with_pk (team_pk team) db = []
  /\ teams_with_pk (team_pk team) db' = [team]
  /\ members_of (team_pk team) db' = []
  /\ submissions_of (team_pk team) db' = []
  /\ result (is_accepting_members team) db' = Return true
  /\ result (can_submit team) db' = Return false.
Proof.
  intros db team db'.
  assert (wf db) as Hwf by apply wf_reachable.
  destruct (refs_ok_reachable calls) as [Hmembers Hsubs].
  fold db in Hmembers, Hsubs.
  rewrite Forall_forall in Hmembers. rewrite Forall_forall in Hsubs.
  assert (forall pk, teams_with_pk pk db <> [] -> pk <= Team_seq db) as Hseq.
  { intros pk Hne.
    destruct (teams_with_pk pk db) as [|t ts] eqn:Hf; [done|].
    assert (t ∈ teams_with_pk pk db) as [<- Ht]%list_elem_of_filter
      by (rewrite Hf; left).
    by apply (wf_team_seq db Hwf). }
  assert (teams_with_pk (team_pk team) db = []) as Hfresh.
  { apply filter_none. intros t Ht Hpk.
    pose proof (wf_team_seq db Hwf t Ht). cbn in Hpk. lia. }
  assert (members_of (team_pk team) db' = []) as Hnone.
  { apply filter_none. intros m Hm Hpk.
    specialize (Hseq _ (Hmembers m Hm)). cbn in Hpk. lia. }
  assert (submissions_of (team_pk team) db' = []) as Hunsolved.
  { apply filter_none. intros s Hs Hpk.
    specialize (Hseq _ (proj1 (Hsubs s Hs))). cbn in Hpk. lia. }
  split; [done|]. split; [done|]. split.
  { unfold teams_with_pk in *. cbn in Hfresh |- *.
    by rewrite filter_app, Hfresh, filter_cons_True. }
  split; [done|]. split; [done|].
  unfold result. rewrite is_accepting_members_eq, can_submit_eq.
  unfold member_count. rewrite Hnone. done.
Qed.

(** ** The shape of progress *)

(** X14: in a database the calls have built, the levels a team has
    submissions for are the first levels, in creation order and without
    gaps, as many as its [next_level_index]; and no (team, level) pair has
    two Submission rows. *)
Theorem submissions_follow_the_levels
    (calls : list call) (self : Team) (level : nat) :
  let db := run calls empty_db in
  submission_level <$> submissions_of (team_pk self) db
  = level_pk <$> take (solved db self) (Level_table db)
  /\ length (filter (fun s => submission_level s = level
                              /\ submission_team s = team_pk self)
                    (Submission_table db)) <= 1.
Proof.
  intros db. assert (wf db) as Hwf by apply wf_reachable.
  split; [apply (wf_progress db Hwf)|].
  rewrite <- list_filter_filter.
  fold (submissions_of (team_pk self) db).
  assert (NoDup (submission_level <$> submissions_of (team_pk self) db))
    as Hnodup.
  { rewrite (wf_progress db Hwf), fmap_take.
    eapply sublist_NoDup; [apply (wf_level_pk db Hwf)|apply sublist_take]. }
  destruct (filter_key_unique submission_level level
              (submissions_of (team_pk self) db) Hnodup) as [->|[s ->]];
    cbn; lia.
Qed.

(** X15: in a database the calls have built, a team's [next_level_index]
    is at most the number of levels; [next_level] is None exactly when it
    equals that number; and [can_submit] is True exactly when the team has
    a member and the index is below it. *)
Theorem progress_is_bounded (calls : list call) (self : Team) :
  let db := run calls empty_db in
  solved db self <= length (Level_table db)
  /\ (result (next_level self) db = Return None
      <-> solved db self = length (Level_table db))
  /\ (result (can_submit self) db = Return true
      <-> 0 < member_count db self
          /\ solved db self < length (Level_table db)).
Proof.
  intros db. assert (wf db) as Hwf by apply wf_reachable.
  pose proof (solved_le_levels db (team_pk self) Hwf) as Hle.
  fold (solved db self) in Hle.
  unfold result. rewrite next_level_eq, can_submit_eq. cbn [fst].
  split; [done|]. split.
  - split.
    + intros [= Hnone]. apply lookup_ge_None in Hnone. lia.
    + intros Heq. f_equal. apply lookup_ge_None. lia.
  - split.
    + intros [= Hcan]. apply andb_prop in Hcan as [Hmembers Hlevel].
      apply negb_true_iff, bool_decide_eq_false in Hmembers.
      apply bool_decide_eq_true in Hlevel.
      split; [lia|]. apply lookup_lt_is_Some.
      by destruct (Level_table db !! solved db self).
    + intros [Hmembers Hlt]. f_equal.
      rewrite bool_decide_false by lia.
      apply lookup_lt_is_Some in Hlt as [l ->].
      by rewrite bool_decide_true.
Qed.

Lemma solve_in_order db self attempts :
  wf db ->
  member_count db self <> 0 ->
  Forall2 (fun l a => level_answer l = encoded a)
          (drop (solved db self) (Level_table db)) attempts ->
  solved (run (SubmitAttempt self <$> attempts) db) self
  = length (Level_table db)
  /\ Level_table (run (SubmitAttempt self <$> attempts) db) = Level_table db
  /\ member_count (run (SubmitAttempt self <$> attempts) db) self
     = member_count db self.
Proof.
  intros Hwf Hmembers Hall. revert db Hwf Hmembers Hall.
  induction attempts as [|a attempts IH]; intros db Hwf Hmembers Hall.
  - apply Forall2_nil_inv_r in Hall.
    pose proof (solved_le_levels db (team_pk self) Hwf) as Hle.
    fold (solved db self) in Hle.
    apply (f_equal length) in Hall. rewrite length_drop in Hall. cbn in *.
    split; [lia|done].
  - apply Forall2_cons_inv_r in Hall as (l & rest & Hanswer & Hrest & Hdrop).
    assert (Level_table db !! solved db self = Some l) as Hlevel.
    { rewrite <- (Nat.add_0_r (solved db self)), <- lookup_drop.
      by rewrite Hdrop. }
    assert (exec db (SubmitAttempt self a) = with_submission db self l)
      as Hexec.
    { cbn [exec]. rewrite submit_attempt_eq, bool_decide_false, Hlevel by done.
      unfold is_correct. rewrite bool_decide_true by done.
      by rewrite Submission_objects_create_next. }
    unfold run in *. cbn [fmap list_fmap fold_left]. rewrite Hexec.
    assert (solved (with_submission db self l) self = S (solved db self))
      as Hsolved.
    { unfold solved, submissions_of. cbn.
      rewrite filter_app, length_app, filter_cons_True by done. cbn. lia. }
    destruct (IH (with_submission db self l)) as (IH1 & IH2 & IH3).
    + by apply wf_with_submission.
    + done.
    + rewrite Hsolved. cbn [with_submission Level_table].
      rewrite (drop_S _ l _ Hlevel) in Hdrop. by simplify_eq.
    + done.
Qed.

(** X16: in a database the calls have built, a team that has a member and
    submits the answers of the levels it has not solved, in order, ends
    with every level solved: its [next_level_index] is the number of
    levels, [next_level] is None and [can_submit] is False. *)
Theorem solving_every_level_in_order
    (calls : list call) (self : Team) (attempts : list string) :
  let db := run calls empty_db in
  let db' := run (SubmitAttempt self <$> attempts) db in
  result (is_empty self) db = Return false ->
  Forall2 (fun l a => level_answer l = encoded a)
          (drop (solved db self) (Level_table db)) attempts ->
  result (next_level_index self) db' = Return (length (Level_table db'))
  /\ result (next_level self) db' = Return None
  /\ result (can_submit self) db' = Return false.
Proof.
  intros db db'. unfold result.
  rewrite is_empty_eq, next_level_index_eq, next_level_eq, can_submit_eq.
  cbn [fst]. intros [= Hmembers] Hall.
  apply bool_decide_eq_false in Hmembers.
  destruct (solve_in_order db self attempts) as (Hsolved & Hlevels & _);
    [apply wf_reachable|done|done|].
  fold db' in Hsolved, Hlevels. rewrite Hlevels, Hsolved.
  rewrite lookup_ge_None_2 by lia.
  rewrite (bool_decide_false (None <> None)) by (intros H; by apply H).
  by rewrite andb_false_r.
Qed.

Lemma solving_every_level_in_order_witness :
  result (next_level_index team_T)
    (run (SubmitAttempt team_T <$> six_answers) six_levels)
  = Return (length (Level_table
                      (run (SubmitAttempt team_T <$> six_answers)
                           six_levels)))
  /\ result (next_level team_T)
       (run (SubmitAttempt team_T <$> six_answers) six_levels) = Return None
  /\ result (can_submit team_T)
       (run (SubmitAttempt team_T <$> six_answers) six_levels)
     = Return false.
Proof.
  apply (solving_every_level_in_order
           (((fun a => CreateLevel ("level-" ++ a) (encoded a))
               <$> six_answers)
              ++ [CreateTeam "T"; AddMember team_T 7])
           team_T six_answers).
  - vm_compute. reflexivity.
  - match goal with
    | |- Forall2 ?P ?levels ?answers =>
        let levels' := eval vm_compute in levels in
        change (Forall2 P levels' answers)
    end.
    unfold six_answers.
    repeat (constructor; [vm_compute; reflexivity|]). constructor.
Defined.

(** ** Level names *)

Lemma level_names_exec db c :
  NoDup (level_name <$> Level_table db) ->
  NoDup (level_name <$> Level_table (exec db c)).
Proof.
  intros Hnodup.
  destruct (decide (call_team c = None)) as [Hnone|Hsome];
    [|by rewrite (proj2 (Level_table_exec db c) Hsome)].
  destruct c as [name|name answer|team user|team user|team attempt];
    try done.
  cbn [exec]. unfold Level_objects_create.
  case_bool_decide as Hfree; [|done].
  cbn. rewrite fmap_app. apply NoDup_app. split; [done|].
  split; [|apply NoDup_singleton].
  intros n (l & -> & Hl)%list_elem_of_fmap Hname%list_elem_of_singleton.
  by apply (filter_nil_all _ _ l Hfree Hl).
Qed.

(** X17: level names stay distinct: in a database the calls have built no
    two levels share a name or a key; creating a level under a name that
    is taken raises the integrity error and writes nothing, and under a
    new name appends the level, whatever its answer. *)
Theorem level_names_are_unique (calls : list call) (name answer : string) :
  let db := run calls empty_db in
  NoDup (level_name <$> Level_table db)
  /\ NoDup (level_pk <$> Level_table db)
  /\ (name ∈ level_name <$> Level_table db ->
      Level_objects_create name answer db
      = (Raise (IntegrityError level_name_unique), db))
  /\ (name ∉ level_name <$> Level_table db ->
      exists db',
        Level_objects_create name answer db
        = (Return (mkLevel (S (Level_seq db)) name answer), db')
        /\ Level_table db'
           = Level_table db ++ [mkLevel (S (Level_seq db)) name answer]).
Proof.
  intros db. split; [|split; [apply (wf_level_pk _ (wf_reachable calls))|]].
  - assert (forall db0, NoDup (level_name <$> Level_table db0) ->
                        NoDup (level_name <$> Level_table (run calls db0)))
      as Hrun.
    { induction calls as [|c calls' IH]; intros db0 Hdb0; [done|].
      apply IH, level_names_exec, Hdb0. }
    apply Hrun, NoDup_nil_2.
  - unfold Level_objects_create. split.
    + intros (l & -> & Hl)%list_elem_of_fmap.
      rewrite bool_decide_false; [done|]. by apply (filter_not_nil _ _ l).
    + intros Hnew. rewrite bool_decide_true; [eauto|].
      apply filter_none. intros l Hl Hname. apply Hnew.
      apply list_elem_of_fmap. eauto.
Qed.

Lemma level_names_are_unique_witness :
  Level_objects_create "L1" (encoded "other") one_level_one_member
  = (Raise (IntegrityError level_name_unique), one_level_one_member)
  /\ exists db',
       Level_objects_create "L2" (encoded "flag1") one_level_one_member
       = (Return (mkLevel 2 "L2" (encoded "flag1")), db')
       /\ Level_table db'
          = Level_table one_level_one_member
              ++ [mkLevel 2 "L2" (encoded "flag1")].
Proof.
  destruct (level_names_are_unique
              [CreateLevel "L1" (encoded "flag1"); CreateTeam "T";
               AddMember team_T 7] "L1" (encoded "other"))
    as (_ & _ & Htaken & _).
  destruct (level_names_are_unique
              [CreateLevel "L1" (encoded "flag1"); CreateTeam "T";
               AddMember team_T 7] "L2" (encoded "flag1"))
    as (_ & _ & _ & Hnew).
  split.
  - apply Htaken. vm_compute. left.
  - apply Hnew. vm_compute. intros [=]%list_elem_of_singleton.
Defined.

(** ** Counting members *)

Lemma length_filter_split {A} (P : A -> Prop) `{!forall x, Decision (P x)}
    (l : list A) :
  length l = length (filter P l) + length (filter (fun x => ~ P x) l).
Proof.
  induction l as [|a l IH]; [done|].
  rewrite !filter_cons. destruct (decide (P a)) as [Ha|Ha].
  - rewrite decide_False by tauto. cbn. lia.
  - rewrite decide_True by done. cbn. lia.
Qed.

Lemma members_bounded_by_teams (teams : list Team) (members : list TeamMember) :
  (forall m, m ∈ members ->
             exists t, t ∈ teams /\ team_pk t = member_team m) ->
  (forall pk, length (filter (fun m => member_team m = pk) members)
              <= MAX_MEMBERS_PER_TEAM) ->
  length members <= MAX_MEMBERS_PER_TEAM * length teams.
Proof.
  revert members. induction teams as [|t teams IH]; intros members Href Hcap.
  - destruct members as [|m members]; [cbn; lia|].
    destruct (Href m) as (t & Ht & _); [left|].
    by apply not_elem_of_nil in Ht.
  - rewrite (length_filter_split (fun m => member_team m = team_pk t)).
    specialize (Hcap (team_pk t)) as Hfirst.
    assert (length (filter (fun m => ~ member_team m = team_pk t) members)
            <= MAX_MEMBERS_PER_TEAM * length teams) as Hrest.
    { apply IH.
      - intros m [Hpk Hm]%list_elem_of_filter.
        destruct (Href m Hm) as (t' & [->|Ht']%elem_of_cons & Hpk');
          [done|eauto].
      - intros pk. etrans; [apply length_filter_filter|apply Hcap]. }
    cbn [length]. lia.
Qed.

(** X18: in a database the calls have built there are at most
    [MAX_MEMBERS_PER_TEAM] membership rows per team row. *)
Theorem members_at_most_four_per_team (calls : list call) :
  length (TeamMember_table (run calls empty_db))
  <= MAX_MEMBERS_PER_TEAM * length (Team_table (run calls empty_db)).
Proof.
  set (db := run calls empty_db).
  assert (wf db) as Hwf by apply wf_reachable.
  apply members_bounded_by_teams; [|apply (wf_capacity db Hwf)].
  intros m Hm. pose proof (wf_member_team db Hwf m Hm) as Hteam.
  destruct (teams_with_pk (member_team m) db) as [|t ts] eqn:Hf; [done|].
  assert (t ∈ teams_with_pk (member_team m) db) as [? ?]%list_elem_of_filter
    by (rewrite Hf; left).
  eauto.
Qed.

(** ** Bounds of [next_level] *)

(** X19: [next_level] never raises: its slice of the levels is always
    within bounds. At an index below the number of levels it returns the
    level at that position; at or beyond it, None; it never writes. *)
Theorem next_level_within_bounds (db : DB) (self : Team) :
  snd (next_level self db) = db
  /\ (exists level, result (next_level self) db = Return level)
  /\ (length (Level_table db) <= solved db self ->
      result (next_level self) db = Return None)
  /\ (solved db self < length (Level_table db) ->
      exists level,
        Level_table db !! solved db self = Some level
        /\ result (next_level self) db = Return (Some level)).
Proof.
  unfold result. rewrite next_level_eq. cbn [fst snd].
  split; [done|]. split; [eauto|]. split.
  - intros Hle. by rewrite lookup_ge_None_2.
  - intros Hlt. apply lookup_lt_is_Some in Hlt as [level Hlevel].
    exists level. by rewrite Hlevel.
Qed.

Lemma next_level_within_bounds_witness :
  result (next_level team_T) one_level_solved = Return None
  /\ exists level,
       Level_table one_level_one_member !! solved one_level_one_member team_T
       = Some level
       /\ result (next_level team_T) one_level_one_member
          = Return (Some level).
Proof.
  split.
  - apply (next_level_within_bounds one_level_solved team_T).
    vm_compute. lia.
  - apply (next_level_within_bounds one_level_one_member team_T).
    vm_compute. lia.
Defined.

(** ** What [submit_attempt] writes *)

(** X20: [submit_attempt] touches the Submission table only; unless it
    returns True the database is as it was; when it returns True it has
    appended one row, of this team and of the level [next_level]
    returned. *)
Theorem submit_attempt_frame (db : DB) (self : Team) (attempt : string) :
  Team_table (snd (submit_attempt self attempt db)) = Team_table db
  /\ TeamMember_table (snd (submit_attempt self attempt db))
     = TeamMember_table db
  /\ Level_table (snd (submit_attempt self attempt db)) = Level_table db
  /\ (snd (submit_attempt self attempt db) = db
      \/ exists level,
           result (next_level self) db = Return (Some level)
           /\ result (submit_attempt self attempt) db = Return true
           /\ Submission_table (snd (submit_attempt self attempt db))
              = Submission_table db
                  ++ [mkSubmission (S (Submission_seq db)) (team_pk self)
                                   (level_pk level)])
  /\ (result (submit_attempt self attempt) db <> Return true ->
      snd (submit_attempt self attempt db) = db).
Proof.
  unfold result. rewrite submit_attempt_eq, next_level_eq.
  case_bool_decide; [by repeat split; try left|].
  destruct (Level_table db !! solved db self) as [level|];
    [|by repeat split; try left].
  destruct (is_correct level attempt); [|by repeat split; try left].
  unfold Submission_objects_create.
  repeat case_bool_decide; cbn; try (by repeat split; try left).
  repeat (split; [done|]). split; [|done]. right. eauto.
Qed.

Lemma submit_attempt_frame_witness :
  snd (submit_attempt team_T "wrong" one_level_one_member)
  = one_level_one_member.
Proof.
  apply (submit_attempt_frame one_level_one_member team_T "wrong").
  vm_compute. discriminate.
Defined.

(** ** Leaving, then joining *)

Lemma memberships_of_after_remove_member db self user :
  Forall (fun m => member_team m = team_pk self) (memberships_of user db) ->
  memberships_of user (snd (remove_member self user db)) = [].
Proof.
  intros Hall. rewrite remove_member_eq. cbn [snd].
  assert (memberships_of user (without_member db self user) = []) as Hnone.
  { unfold memberships_of. cbn. rewrite list_filter_filter.
    apply filter_none. intros m Hm [Hu Hrow]. apply Hrow. split; [|done].
    apply (proj1 (Forall_forall _ _) Hall).
    apply list_elem_of_filter. by split. }
  by case_bool_decide.
Qed.

(** X21: a user who has left can join again: after [remove_member] from
    the team the user's membership was in, [add_member] to a team that has
    a row and room returns, and the user is a member of that team. *)
Theorem add_member_after_remove_member
    (db : DB) (self other : Team) (user : User) :
  let db1 := snd (remove_member self user db) in
  Forall (fun m => member_team m = team_pk self) (memberships_of user db) ->
  teams_with_pk (team_pk other) db1 <> [] ->
  member_count db1 other < MAX_MEMBERS_PER_TEAM ->
  exists db2,
    add_member other user db1 = (Return tt, db2)
    /\ memberships_of user db2
       = [mkTeamMember (S (TeamMember_seq db1)) (team_pk other) user]
    /\ member_count db2 other = S (member_count db1 other).
Proof.
  intros db1 Hall Hteam Hroom.
  pose proof (memberships_of_after_remove_member db self user Hall) as Hfree.
  fold db1 in Hfree. clearbody db1.
  rewrite add_member_eq, bool_decide_true by done.
  unfold TeamMember_objects_create.
  rewrite bool_decide_true, bool_decide_false by done.
  eexists. split; [done|].
  unfold member_count, members_of, memberships_of in *. cbn.
  rewrite !filter_app, Hfree, !filter_cons_True, length_app by done.
  cbn. split; [done|lia].
Qed.

Lemma add_member_after_remove_member_witness :
  exists db2,
    add_member (mkTeam 2 "U") 7 (snd (remove_member team_T 7 two_teams))
    = (Return tt, db2)
    /\ memberships_of 7 db2 = [mkTeamMember 2 2 7]
    /\ member_count db2 (mkTeam 2 "U") = 1.
Proof.
  apply (add_member_after_remove_member two_teams team_T (mkTeam 2 "U") 7).
  - vm_compute. repeat constructor.
  - vm_compute. discriminate.
  - vm_compute. lia.
Defined.

(** ** Filling a team *)

Lemma add_members_count db team users :
  teams_with_pk (team_pk team) db <> [] ->
  member_count db team <= MAX_MEMBERS_PER_TEAM ->
  NoDup users ->
  Forall (fun u => memberships_of u db = []) users ->
  member_count (run (AddMember team <$> users) db) team
  = min MAX_MEMBERS_PER_TEAM (member_count db team + length users).
Proof.
  intros Hteam Hcap Hnodup Hfree. revert db Hteam Hcap Hfree.
  unfold MAX_MEMBERS_PER_TEAM in *.
  induction Hnodup as [|u users Hu Hnodup IH]; intros db Hteam Hcap Hfree.
  - unfold run. cbn [fmap list_fmap fold_left length]. lia.
  - apply Forall_cons in Hfree as [Hufree Hfree].
    unfold run in *. cbn [fmap list_fmap fold_left exec length].
    rewrite add_member_eq. unfold TeamMember_objects_create.
    rewrite Hufree, (bool_decide_true ([] = [])) by done.
    rewrite (bool_decide_false (teams_with_pk _ _ = [])) by done.
    unfold MAX_MEMBERS_PER_TEAM.
    case_bool_decide as Hroom; cbn [snd].
    + rewrite IH.
      * unfold member_count, members_of. cbn [TeamMember_table].
        rewrite filter_app, length_app, filter_cons_True by done.
        cbn [length filter list_filter]. lia.
      * done.
      * unfold member_count, members_of in *. cbn [TeamMember_table].
        rewrite filter_app, length_app, filter_cons_True by done.
        cbn [length filter list_filter]. lia.
      * rewrite Forall_forall in Hfree. apply Forall_forall. intros u' Hu'.
        unfold memberships_of in *. cbn.
        rewrite filter_app, (Hfree u' Hu'), filter_cons_False; [done|].
        cbn. intros <-. done.
    + rewrite IH by done. lia.
Qed.

(** X22: a team fills up to [MAX_MEMBERS_PER_TEAM] and no further: adding
    distinct users who are in no team, one after the other, to a team that
    has a row and [k] members leaves it with [min 4 (k + n)] members. *)
Theorem team_fills_up_to_capacity
    (calls : list call) (team : Team) (users : list User) :
  let db := run calls empty_db in
  teams_with_pk (team_pk team) db <> [] ->
  NoDup users ->
  Forall (fun u => memberships_of u db = []) users ->
  member_count (run (AddMember team <$> users) db) team
  = min MAX_MEMBERS_PER_TEAM (member_count db team + length users).
Proof.
  intros db Hteam Hnodup Hfree.
  apply add_members_count; try done.
  apply (wf_capacity db (wf_reachable calls)).
Qed.

Lemma team_fills_up_to_capacity_witness :
  member_count (run (AddMember team_T <$> [11; 12; 13; 14; 15])
                    one_level_one_member) team_T
  = min MAX_MEMBERS_PER_TEAM (member_count one_level_one_member team_T + 5).
Proof.
  apply (team_fills_up_to_capacity
           [CreateLevel "L1" (encoded "flag1"); CreateTeam "T";
            AddMember team_T 7] team_T [11; 12; 13; 14; 15]).
  - vm_compute. discriminate.
  - apply (bool_decide_unpack _). vm_compute. reflexivity.
  - repeat constructor; vm_compute; reflexivity.
Defined.
